(** * courierInfo: coordinate validation and row accumulation

    A shallow embedding of [main.go]: the coordinate parser [getLatLong],
    the row loop of [markLocations], and [main] with [terminate], with the
    library calls they make ([strings.Split], [strings.TrimSpace],
    [strconv.ParseFloat], the static-map context, the path functions)
    modelled next to them.

    Go's [float64] is Rocq's primitive binary64 [float]; Go's [string] is a
    sequence of bytes, here [string] over [ascii]; Go's [int] is a 64-bit
    two's complement integer, here a [Z] wrapped by [wrap64]. *)

From Stdlib Require Import ZArith NArith Bool List Ascii String Floats Lia.
From Stdlib Require Import DecimalString.
Import ListNotations.

Local Open Scope string_scope.
Local Open Scope Z_scope.

(** ** Go's [error] values that the program can produce *)

(** [strconv.ErrSyntax] and [strconv.ErrRange]. *)
Inductive numErr : Type := ErrSyntax | ErrRange.

Inductive error : Type :=
| ErrLatLong                                   (* "LatLong is incorrect" *)
| ErrLatLongOutOfRange                         (* "LatLong is out of range" *)
| ErrBadInput                                  (* "Bad input" *)
| NumError (Func Num : string) (Err : numErr)  (* *strconv.NumError *)
| PathError (Op Path : string).                (* *os.PathError and the like *)

(** A Go [error] result: [None] is [nil]. *)
Definition err_t : Type := option error.

(** ** Package [strings]

    Models of the two functions of Go's standard library that [getLatLong]
    calls. *)

Module strings.

(** [strings.Split(s, sep)] for a non-empty [sep]: the pieces of [s]
    between the leftmost non-overlapping occurrences of [sep].  [skip]
    counts the bytes of a separator that are still to be dropped and [acc]
    is the piece being built. *)
Fixpoint genSplit (sep : string) (skip : nat) (acc s : string) : list string :=
  match s with
  | EmptyString => [acc]
  | String c s' =>
      match skip with
      | S k => genSplit sep k acc s'
      | O =>
          if String.prefix sep s
          then acc :: genSplit sep (String.length sep - 1) "" s'
          else genSplit sep 0 (acc ++ String c "") s'
      end
  end.

(** With an empty separator Go cuts after every UTF-8 sequence; the model
    cuts after every byte, which is the same on ASCII text. *)
Fixpoint explode (s : string) : list string :=
  match s with
  | EmptyString => []
  | String c s' => String c "" :: explode s'
  end.

Definition Split (s sep : string) : list string :=
  match sep with
  | EmptyString => explode s
  | _ => genSplit sep 0 "" s
  end.

(** The six ASCII white-space bytes: tab, line feed, vertical tab, form
    feed, carriage return and space. *)
Definition asciiSpace (c : ascii) : bool :=
  let n := N_of_ascii c in
  ((9 <=? n) && (n <=? 13) || (n =? 32))%N.

(** The other Unicode white space, as UTF-8: U+0085 and U+00A0 on two
    bytes; U+1680, U+2000..U+200A, U+2028, U+2029, U+202F, U+205F and
    U+3000 on three. *)
Definition space2 (c1 c2 : ascii) : bool :=
  let a := N_of_ascii c1 in
  let b := N_of_ascii c2 in
  ((a =? 194) && ((b =? 133) || (b =? 160)))%N.

Definition space3 (c1 c2 c3 : ascii) : bool :=
  let a := N_of_ascii c1 in
  let b := N_of_ascii c2 in
  let c := N_of_ascii c3 in
  ((a =? 225) && (b =? 154) && (c =? 128)
   || (a =? 226) && (b =? 128)
      && ((128 <=? c) && (c <=? 138) || (c =? 168) || (c =? 169) || (c =? 175))
   || (a =? 226) && (b =? 129) && (c =? 159)
   || (a =? 227) && (b =? 128) && (c =? 128))%N.

(** Drop the white space at the front of [s].  [rev] tells that [s] is
    read back to front, so that a multi-byte sequence shows its last byte
    first. *)
Fixpoint trimFront (rev : bool) (s : string) : string :=
  match s with
  | EmptyString => s
  | String c1 s1 =>
      if asciiSpace c1 then trimFront rev s1
      else
        match s1 with
        | EmptyString => s
        | String c2 s2 =>
            if (if rev then space2 c2 c1 else space2 c1 c2) then trimFront rev s2
            else
              match s2 with
              | EmptyString => s
              | String c3 s3 =>
                  if (if rev then space3 c3 c2 c1 else space3 c1 c2 c3)
                  then trimFront rev s3
                  else s
              end
        end
  end.

Fixpoint reverse (acc s : string) : string :=
  match s with
  | EmptyString => acc
  | String c s' => reverse (String c acc) s'
  end.

(** [strings.TrimSpace(s)]: [s] without its leading and trailing white
    space (on valid UTF-8). *)
Definition TrimSpace (s : string) : string :=
  reverse "" (trimFront true (reverse "" (trimFront false s))).

(** [strings.HasSuffix(s, suffix)] and [strings.TrimSuffix(s, suffix)]. *)
Definition HasSuffix (s suffix : string) : bool :=
  (String.length suffix <=? String.length s)%nat
  && (substring (String.length s - String.length suffix) (String.length suffix) s
      =? suffix)%string.

Definition TrimSuffix (s suffix : string) : string :=
  if HasSuffix s suffix
  then substring 0 (String.length s - String.length suffix) s
  else s.

End strings.

(** ** Package [strconv]: [ParseFloat(s, 64)]

    A model of the function of Go's standard library.  The grammar follows
    its [readFloat] and [special]: decimal and hexadecimal literals,
    underscores between digits, infinities and NaN.  The value is the
    binary64 number nearest to the literal, ties to even, which is what Go
    guarantees whichever of its conversion paths it takes.  The 19-digit
    cut of the mantissa that Go's fast path makes is therefore not
    reproduced: the mantissa is kept in full. *)

Module strconv.

Definition fnParseFloat : string := "ParseFloat".

Definition byte (c : ascii) : N := N_of_ascii c.

(** [lower(c)] is [c | ('x' - 'X')]. *)
Definition lower (c : ascii) : ascii := ascii_of_N (N.lor (byte c) 32).

Definition isDigit (c : ascii) : bool := ((48 <=? byte c) && (byte c <=? 57))%N.

Definition isHexLetter (c : ascii) : bool :=
  ((97 <=? byte (lower c)) && (byte (lower c) <=? 102))%N.

Fixpoint commonPrefixLenIgnoreCase (s prefix : string) : nat :=
  match s, prefix with
  | String c s', String p prefix' =>
      let c := if ((65 <=? byte c) && (byte c <=? 90))%N
               then ascii_of_N (byte c + 32) else c in
      if Ascii.eqb c p then S (commonPrefixLenIgnoreCase s' prefix') else O
  | _, _ => O
  end.

(** The part of [special] shared by the signed and the unsigned case:
    "inf" or "infinity" at the front of [s]. *)
Definition specialInf (neg : bool) (nsign : nat) (s : string) : option (float * nat) :=
  let n := commonPrefixLenIgnoreCase s "infinity" in
  let n := if (3 <? n)%nat && (n <? 8)%nat then 3%nat else n in
  if (n =? 3)%nat || (n =? 8)%nat
  then Some (if neg then neg_infinity else infinity, (nsign + n)%nat)
  else None.

(** [special(s)]: an optionally signed infinity or an unsigned NaN, with
    the number of bytes it takes. *)
Definition special (s : string) : option (float * nat) :=
  match s with
  | EmptyString => None
  | String c s' =>
      if Ascii.eqb c "+" then specialInf false 1 s'
      else if Ascii.eqb c "-" then specialInf true 1 s'
      else if Ascii.eqb c "i" || Ascii.eqb c "I" then specialInf false 0 s
      else if Ascii.eqb c "n" || Ascii.eqb c "N" then
        if (commonPrefixLenIgnoreCase s "nan" =? 3)%nat then Some (nan, 3%nat) else None
      else None
  end.

(** The state of the digit loop of [readFloat]. *)
Record digits : Type := mkDigits {
  mantissa : N;        (* the digits read, leading zeros apart *)
  nd : Z;              (* how many they are *)
  dp : Z;              (* where the point stands among them *)
  sawdot : bool;
  sawdigits : bool;
  underscores : bool
}.

Fixpoint readDigits (base : N) (s : string) (d : digits) : digits * string :=
  match s with
  | EmptyString => (d, s)
  | String c s' =>
      if Ascii.eqb c "_" then
        readDigits base s'
          (mkDigits (mantissa d) (nd d) (dp d) (sawdot d) (sawdigits d) true)
      else if Ascii.eqb c "." then
        if sawdot d then (d, s)
        else readDigits base s'
               (mkDigits (mantissa d) (nd d) (nd d) true (sawdigits d) (underscores d))
      else if isDigit c then
        if Ascii.eqb c "0" && (nd d =? 0) then
          readDigits base s'
            (mkDigits (mantissa d) (nd d) (dp d - 1) (sawdot d) true (underscores d))
        else
          readDigits base s'
            (mkDigits (mantissa d * base + (byte c - 48))%N (nd d + 1) (dp d)
               (sawdot d) true (underscores d))
      else if (base =? 16)%N && isHexLetter c then
        readDigits base s'
          (mkDigits (mantissa d * 16 + (byte (lower c) - 97 + 10))%N (nd d + 1) (dp d)
             (sawdot d) true (underscores d))
      else (d, s)
  end.

(** The digits of the exponent; [e] stops growing once it has reached
    10000. *)
Fixpoint readExp (s : string) (e : Z) (us : bool) : Z * bool * string :=
  match s with
  | EmptyString => (e, us, s)
  | String c s' =>
      if Ascii.eqb c "_" then readExp s' e true
      else if isDigit c then
        readExp s' (if e <? 10000 then e * 10 + Z.of_N (byte c - 48) else e) us
      else (e, us, s)
  end.

Inductive seen : Type := SeenStart | SeenDigit | SeenUnderscore | SeenOther.

Fixpoint underscoreScan (hex : bool) (s : string) (saw : seen) : bool :=
  match s with
  | EmptyString => match saw with SeenUnderscore => false | _ => true end
  | String c s' =>
      if isDigit c || hex && isHexLetter c then underscoreScan hex s' SeenDigit
      else if Ascii.eqb c "_" then
        match saw with SeenDigit => underscoreScan hex s' SeenUnderscore | _ => false end
      else
        match saw with SeenUnderscore => false | _ => underscoreScan hex s' SeenOther end
  end.

(** [underscoreOK(s)]: every underscore of [s] stands between two digits,
    or between a base prefix and a digit. *)
Definition underscoreOK (s : string) : bool :=
  let s := match s with
           | String c s' => if Ascii.eqb c "-" || Ascii.eqb c "+" then s' else s
           | EmptyString => s
           end in
  match s with
  | String c0 (String c1 r) =>
      if Ascii.eqb c0 "0"
         && (Ascii.eqb (lower c1) "b" || Ascii.eqb (lower c1) "o" || Ascii.eqb (lower c1) "x")
      then underscoreScan (Ascii.eqb (lower c1) "x") r SeenDigit
      else underscoreScan false s SeenStart
  | _ => underscoreScan false s SeenStart
  end.

(** What [readFloat] returns when it succeeds: the literal is
    [(-1)^neg * mant * 10^exp], or [... * 2^exp] when [hex]; [len] bytes
    were read. *)
Record number : Type := mkNumber {
  mant : N; exp : Z; neg : bool; hex : bool; len : nat
}.

Definition readFloat (s : string) : option number :=
  let '(neg, s1) :=
    match s with
    | String c r => if Ascii.eqb c "+" then (false, r)
                    else if Ascii.eqb c "-" then (true, r) else (false, s)
    | EmptyString => (false, s)
    end in
  let '(hex, s2) :=
    match s1 with
    | String c0 (String c1 (String c2 r)) =>
        if Ascii.eqb c0 "0" && Ascii.eqb (lower c1) "x" then (true, String c2 r)
        else (false, s1)
    | _ => (false, s1)
    end in
  let '(d, s3) := readDigits (if hex then 16 else 10)%N s2
                    (mkDigits 0 0 0 false false false) in
  if negb (sawdigits d) then None
  else
    let dp0 := if sawdot d then dp d else nd d in
    let dp1 := if hex then dp0 * 4 else dp0 in
    let ndMant := if hex then nd d * 4 else nd d in
    let finish (dp2 : Z) (us : bool) (rest : string) : option number :=
      let i := (String.length s - String.length rest)%nat in
      if us && negb (underscoreOK (substring 0 i s)) then None
      else Some (mkNumber (mantissa d)
                   (if (mantissa d =? 0)%N then 0 else dp2 - ndMant) neg hex i) in
    match s3 with
    | String c r =>
        if Ascii.eqb (lower c) (if hex then "p" else "e")%char then
          match r with
          | EmptyString => None
          | String c' r' =>
              let '(esign, r1) :=
                if Ascii.eqb c' "+" then (1, r')
                else if Ascii.eqb c' "-" then (-1, r') else (1, r) in
              match r1 with
              | EmptyString => None
              | String c'' _ =>
                  if negb (isDigit c'') then None
                  else
                    let '(e, us, rest) := readExp r1 0 (underscores d) in
                    finish (dp1 + e * esign) us rest
              end
          end
        else if hex then None
        else finish dp1 (underscores d) s3
    | EmptyString => if hex then None else finish dp1 (underscores d) s3
    end.

(** The binary64 number nearest to [(-1)^neg * m * 10^e], ties to even. *)
Definition roundDecimal (neg : bool) (m : N) (e : Z) : spec_float :=
  match m with
  | N0 => S754_zero neg
  | Npos p =>
      if 0 <=? e then binary_round prec emax neg (p * Z.to_pos (10 ^ e)) 0
      else
        let '(q, e', l) := SFdiv_core_binary prec emax (Zpos p) 0 (10 ^ (- e)) 0 in
        binary_round_aux prec emax neg q e' l
  end.

(** The binary64 number nearest to [(-1)^neg * m * 2^e], ties to even. *)
Definition roundBinary (neg : bool) (m : N) (e : Z) : spec_float :=
  match m with
  | N0 => S754_zero neg
  | Npos p => binary_round prec emax neg p e
  end.

(** [atof64]: the value, the number of bytes read and the error kind. *)
Definition atof64 (s : string) : float * nat * option numErr :=
  match special s with
  | Some (val, n) => (val, n, None)
  | None =>
      match readFloat s with
      | None => (0%float, O, Some ErrSyntax)
      | Some x =>
          let f := if hex x then roundBinary (neg x) (mant x) (exp x)
                   else roundDecimal (neg x) (mant x) (exp x) in
          match f with
          | S754_infinity _ => (SF2Prim f, len x, Some ErrRange)
          | _ => (SF2Prim f, len x, None)
          end
      end
  end.

(** [strconv.ParseFloat(s, 64)]. *)
Definition ParseFloat (s : string) : float * err_t :=
  let '(f, n, err) := atof64 s in
  match err with
  | Some ErrSyntax => (0%float, Some (NumError fnParseFloat s ErrSyntax))
  | Some ErrRange =>
      if (n =? String.length s)%nat then (f, Some (NumError fnParseFloat s ErrRange))
      else (0%float, Some (NumError fnParseFloat s ErrSyntax))
  | None =>
      if (n =? String.length s)%nat then (f, None)
      else (0%float, Some (NumError fnParseFloat s ErrSyntax))
  end.

End strconv.

(** ** The libraries behind the rendering context

    Only what [markLocations] touches: [NewMarker] and [NewPath] keep their
    arguments, [AddMarker] and [AddPath] append. *)

Module color.
Record RGBA : Type := mkRGBA { R : Z; G : Z; B : Z; A : Z }.
End color.

Module s2.
(** [s2.LatLngFromDegrees(lat, lng)], kept as the pair of degrees it was
    built from. *)
Inductive LatLng : Type := LatLngFromDegrees (lat lng : float).
End s2.

Module sm.

Record Marker : Type := NewMarker {
  Position : s2.LatLng; MarkerColor : color.RGBA; Size : float
}.

Record Path : Type := NewPath {
  Positions : list s2.LatLng; PathColor : color.RGBA; Weight : float
}.

Record Context : Type := mkContext {
  width : Z; height : Z; markers : list Marker; paths : list Path
}.

Definition NewContext : Context := mkContext 512 512 [] [].

Definition SetSize (m : Context) (w h : Z) : Context :=
  mkContext w h (markers m) (paths m).

Definition AddMarker (m : Context) (marker : Marker) : Context :=
  mkContext (width m) (height m) (markers m ++ [marker]) (paths m).

Definition AddPath (m : Context) (path : Path) : Context :=
  mkContext (width m) (height m) (markers m) (paths m ++ [path]).

End sm.

(** ** What a call can do: return, or panic on an index out of range *)

Inductive outcome (A : Type) : Type :=
| Returns (a : A)
| Panics (index len : nat).   (* index out of range [index] with length len *)

Arguments Returns {A} a.
Arguments Panics {A} index len.

Definition bind {A B : Type} (m : outcome A) (k : A -> outcome B) : outcome B :=
  match m with
  | Returns a => k a
  | Panics i n => Panics i n
  end.

Definition omap {A B : Type} (f : A -> B) (m : outcome A) : outcome B :=
  bind m (fun a => Returns (f a)).

Notation "x <- m ;; k" := (bind m (fun x => k))
  (at level 61, m at next level, right associativity).

(** [record[i]] on a slice of strings. *)
Definition index (record : list string) (i : nat) : outcome string :=
  match nth_error record i with
  | Some field => Returns field
  | None => Panics i (List.length record)
  end.

(** Go's [int] on a 64-bit platform. *)
Definition wrap64 (z : Z) : Z := (z + 2 ^ 63) mod 2 ^ 64 - 2 ^ 63.

(** ** main.go *)

Set Warnings "-inexact-float".

(** Boundary points. *)
Definition SouthernmostPoint : float := 94.972778.
Definition NorthernmostPoint : float := 141.019444.
Definition WesternmostPoint : float := 6.075.
Definition EasternmostPoint : float := -11.0075.

Set Warnings "inexact-float".

(** The range test of [getLatLong], line 159. *)
Definition outOfRange (x y : float) : bool :=
  (y <? SouthernmostPoint)%float || (NorthernmostPoint <? y)%float
  || (WesternmostPoint <? x)%float || (x <? EasternmostPoint)%float.

Definition getLatLong (latlong : string) : float * float * err_t :=
  if (latlong =? "")%string || (latlong =? ",")%string || (latlong =? "-999,-999")%string
  then (0%float, 0%float, Some ErrLatLong)
  else
    let xy := strings.Split latlong "," in
    if negb (List.length xy =? 2)%nat then (0%float, 0%float, Some ErrLatLong)
    else
      let '(x, err) := strconv.ParseFloat (strings.TrimSpace (nth 0 xy "")) in
      match err with
      | Some _ => (0%float, 0%float, err)
      | None =>
          let '(y, err) := strconv.ParseFloat (strings.TrimSpace (nth 1 xy "")) in
          match err with
          | Some _ => (0%float, 0%float, err)
          | None =>
              if outOfRange x y then (0%float, 0%float, Some ErrLatLongOutOfRange)
              else (x, y, err)
          end
      end.

(** The file system and the CSV reader, as [markLocations] sees them.  A
    file that opens is the list of records that its [csv.Reader] returns
    before [io.EOF], one for each call of [Read].  [Read] can return an
    error with a record (a wrong number of fields, a bad quote); the loop
    compares the error with [io.EOF] and nothing else, so the error is not
    kept and the record is whatever came with it.  A reader that never
    comes to [io.EOF] is not modelled. *)
Record FileInfo : Type := mkFileInfo { IsDir : bool }.

Definition File : Type := list (list string).

Record System : Type := mkSystem {
  Abs : string -> string + error;      (* filepath.Abs *)
  Stat : string -> FileInfo + error;   (* os.Stat *)
  Open : string -> File + error        (* os.Open, then csv.NewReader *)
}.

Definition green : color.RGBA := color.mkRGBA 0 255 0 255.
Definition red : color.RGBA := color.mkRGBA 255 0 0 255.
Definition black : color.RGBA := color.mkRGBA 0 0 0 255.

(** Lines 110 to 129: what is done with a row that passes the limit test.
    A [continue] is a return of the context as it stands. *)
Definition markRow (mode : string) (record : list string) (ctx : sm.Context)
  : outcome sm.Context :=
  field9 <- index record 9 ;;
  let '(x1, y1, err) := getLatLong field9 in
  match err with
  | Some _ => Returns ctx
  | None =>
      field12 <- index record 12 ;;
      let '(x2, y2, err) := getLatLong field12 in
      match err with
      | Some _ => Returns ctx
      | None =>
          let ctx := sm.AddMarker ctx (sm.NewMarker (s2.LatLngFromDegrees x1 y1) green 4) in
          let ctx := sm.AddMarker ctx (sm.NewMarker (s2.LatLngFromDegrees x2 y2) red 4) in
          if (mode =? "line")%string then
            let pos := ([] ++ [s2.LatLngFromDegrees x1 y1])%list in
            let pos := (pos ++ [s2.LatLngFromDegrees x2 y2])%list in
            Returns (sm.AddPath ctx (sm.NewPath pos black 1))
          else Returns ctx
      end
  end.

(** One turn of the loop, lines 106 to 130, on the record just read. *)
Definition step (limit : Z) (mode : string) (record : list string)
  (st : sm.Context * Z) : outcome (sm.Context * Z) :=
  let '(ctx, rowCount) := st in
  let rowCount := wrap64 (rowCount + 1) in
  if rowCount =? 0 then Returns (ctx, rowCount)
  else if (limit =? 0) || (rowCount <? limit) then
    ctx <- markRow mode record ctx ;; Returns (ctx, rowCount)
  else Returns (ctx, rowCount).

(** The loop, lines 100 to 131: it ends when the reader is at [io.EOF]. *)
Fixpoint readAll (limit : Z) (mode : string) (file : File) (st : sm.Context * Z)
  : outcome (sm.Context * Z) :=
  match file with
  | [] => Returns st
  | record :: rest => st <- step limit mode record st ;; readAll limit mode rest st
  end.

Definition markLocations (sys : System) (limit : Z) (filename mode : string)
  : outcome (sm.Context * Z * err_t) :=
  let ctx := sm.SetSize sm.NewContext 600 400 in
  match Abs sys filename with
  | inr err => Returns (ctx, 0, Some err)
  | inl filePath =>
      if match Stat sys filePath with inl stat => IsDir stat | inr _ => false end
      then Returns (ctx, 0, Some ErrBadInput)
      else
        match Open sys filePath with
        | inr err => Returns (ctx, 0, Some err)
        | inl file =>
            st <- readAll limit mode file (ctx, -1) ;;
            Returns (fst st, snd st, None)
        end
  end.

(** ** Packages [filepath], [path] and [fmt]

    Models of the functions of Go's standard library that [main] calls, on
    a system whose path separator is the slash. *)

Module filepath.

Definition isSlash (c : ascii) : bool := Ascii.eqb c "/".

Fixpoint dropSlashes (s : string) : string :=
  match s with
  | String c s' => if isSlash c then dropSlashes s' else s
  | EmptyString => s
  end.

(** What follows the last slash of [s]; [acc] is what follows the last
    slash read so far. *)
Fixpoint lastElement (acc s : string) : string :=
  match s with
  | EmptyString => acc
  | String c s' =>
      if isSlash c then lastElement "" s' else lastElement (acc ++ String c "") s'
  end.

(** [filepath.Base(path)]: the last element of the path, trailing slashes
    apart; "." for the empty path and "/" for a path of slashes. *)
Definition Base (path : string) : string :=
  match path with
  | EmptyString => "."
  | _ =>
      let path := strings.reverse "" (dropSlashes (strings.reverse "" path)) in
      match lastElement "" path with
      | EmptyString => "/"
      | element => element
      end
  end.

(** The suffix that starts at the last dot of the last element; [cur] is
    that suffix for what has been read, and is empty when the last element
    has had no dot yet. *)
Fixpoint extension (cur s : string) : string :=
  match s with
  | EmptyString => cur
  | String c s' =>
      if isSlash c then extension "" s'
      else if Ascii.eqb c "." then extension (String c "") s'
      else match cur with
           | EmptyString => extension "" s'
           | _ => extension (cur ++ String c "") s'
           end
  end.

(** [filepath.Ext(path)]. *)
Definition Ext (path : string) : string := extension "" path.

End filepath.

Module path.

(** The elements that [Clean] keeps; [out] holds them last first.  A ".."
    takes away the element before it, stays when there is none and the path
    is not rooted, and is dropped at the root. *)
Fixpoint cleanElements (rooted : bool) (elements out : list string) : list string :=
  match elements with
  | [] => rev out
  | e :: rest =>
      if (e =? "")%string || (e =? ".")%string then cleanElements rooted rest out
      else if (e =? "..")%string then
        match out with
        | top :: out' =>
            if (top =? "..")%string then cleanElements rooted rest (e :: out)
            else cleanElements rooted rest out'
        | [] => if rooted then cleanElements rooted rest out
                else cleanElements rooted rest (e :: out)
        end
      else cleanElements rooted rest (e :: out)
  end.

(** [path.Clean(path)]. *)
Definition Clean (path : string) : string :=
  match path with
  | EmptyString => "."
  | String c _ =>
      let rooted := Ascii.eqb c "/" in
      let kept := cleanElements rooted (strings.Split path "/") [] in
      match (if rooted then "/" else "") ++ String.concat "/" kept with
      | EmptyString => "."
      | cleaned => cleaned
      end
  end.

(** [path.Join(elem...)]: the non-empty elements, a slash between them,
    cleaned; the empty string when there is none. *)
Definition Join (elem : list string) : string :=
  match filter (fun e => negb (e =? "")%string) elem with
  | [] => ""
  | kept => Clean (String.concat "/" kept)
  end.

End path.

Module fmt.

(** The verb [%d] on an [int]. *)
Definition decimal (z : Z) : string := NilZero.string_of_int (Z.to_int z).

(** [fmt.Sprintf("Input: %s, mode: %s, limit: %d", filename, mode, limit)]. *)
Definition inputLine (filename mode : string) (limit : Z) : string :=
  "Input: " ++ filename ++ ", mode: " ++ mode ++ ", limit: " ++ decimal limit.

(** [fmt.Sprintf("img-%s-%s-%d-%d.png", baseName, mode, rowCount, unix)]. *)
Definition imageName (baseName mode : string) (rowCount unix : Z) : string :=
  "img-" ++ baseName ++ "-" ++ mode ++ "-" ++ decimal rowCount ++ "-"
  ++ decimal unix ++ ".png".

End fmt.

(** ** main.go: [main] and [terminate] *)

Definition ImagesDir : string := "images".

(** The line feed. *)
Definition nl : string := String "010" "".

(** An image, kept as the context that was rendered. *)
Inductive Image : Type := ImageOf (ctx : sm.Context).

(** What [main] gets from outside besides the input file: the renderer,
    whether [os.Stat] finds no "images" directory, the writer of the PNG
    file and the clock. *)
Record World : Type := mkWorld {
  Render : sm.Context -> Image + error;       (* ctx.Render() *)
  IsNotExist : string -> bool;                (* os.IsNotExist of os.Stat's error *)
  SavePNG : string -> Image -> option error;  (* gg.SavePNG *)
  Unix : Z                                    (* time.Now().Unix() *)
}.

(** An operand of [fmt.Println]: a string, or the text [err.Error()]. *)
Inductive operand : Type := Str (s : string) | ErrorOf (e : error).

(** What a run prints on standard output, renders, creates and writes, in
    order.  What the flag package writes on standard error when it refuses
    the command line is not recorded. *)
Inductive event : Type :=
| Println (operands : list operand)
| Rendering (ctx : sm.Context)
| Mkdir (name : string) (perm : Z)
| Saving (path : string) (img : Image).

(** How a run ends: [main] returns, [os.Exit] is called, or the run panics
    on an index out of range. *)
Inductive ending : Type :=
| Returned
| Exited (code : Z)
| Panicked (index len : nat).

Definition usage : string :=
  nl ++ "Usage: go run app.go -file <filename> -mode [plot|line] -limit [0|N]".

(** [os.ModePerm]. *)
Definition ModePerm : Z := 511.

(** [terminate], lines 166 to 174: the usage, the error when there is one,
    and [os.Exit(0)]. *)
Definition terminate (err : err_t) : list event * ending :=
  (Println [Str usage]
   :: match err with
      | Some e => [Println [Str "Error: "; ErrorOf e]]
      | None => []
      end,
   Exited 0).

(** [events], then what [rest] does. *)
Definition andThen (events : list event) (rest : list event * ending)
  : list event * ending :=
  ((events ++ fst rest)%list, snd rest).

(** [main] from line 50 on, once [flag.Parse] has returned and left
    [limit], [filename] and [mode] in the three flags; the call of
    [flag.Parse] itself is in [run] below.  A call of [terminate] ends the
    run, so what follows it in the source is the other branch here. *)
Definition main (sys : System) (w : World) (limit : Z) (filename mode : string)
  : list event * ending :=
  andThen [Println [Str (fmt.inputLine filename mode limit)]]
    match markLocations sys limit filename mode with
    | Panics i n => ([], Panicked i n)
    | Returns (ctx, rowCount, Some err) => terminate (Some err)
    | Returns (ctx, rowCount, None) =>
        andThen [Rendering ctx]
          match Render w ctx with
          | inr err => terminate (Some err)
          | inl img =>
              let baseName := filepath.Base filename in
              let baseName := strings.TrimSuffix baseName (filepath.Ext baseName) in
              andThen (if IsNotExist w ImagesDir then [Mkdir ImagesDir ModePerm] else [])
                (let outFilePath :=
                   path.Join [ImagesDir;
                              fmt.imageName baseName mode rowCount (Unix w)] in
                 andThen [Saving outFilePath img]
                   match SavePNG w outFilePath img with
                   | Some err => terminate (Some err)
                   | None =>
                       ([Println [Str (nl ++ "Generated: "); Str outFilePath]],
                        Returned)
                   end)
          end
    end.

(** What [flag.Parse], line 48, makes of the command line: the values of
    the three flags of lines 44 to 46, or a refusal, on which the flag
    package calls [os.Exit] with a status of its own (2 for a malformed
    command line) and [main] goes no further. *)
Inductive commandLine : Type :=
| Parsed (limit : Z) (filename mode : string)
| Refused (status : Z).

(** The whole of [main], lines 39 to 74. *)
Definition run (sys : System) (w : World) (cmd : commandLine)
  : list event * ending :=
  match cmd with
  | Parsed limit filename mode => main sys w limit filename mode
  | Refused status => ([], Exited status)
  end.

(** ** Notions used to state the properties *)

(** [x] and [y] lie in the bounding box: southern <= y <= northern and
    eastern <= x <= western. *)
Definition inside (x y : float) : bool :=
  (SouthernmostPoint <=? y)%float && (y <=? NorthernmostPoint)%float
  && (EasternmostPoint <=? x)%float && (x <=? WesternmostPoint)%float.

(** The error of a result of [getLatLong]. *)
Definition errOf (r : float * float * err_t) : err_t := snd r.

(** The context [markLocations] starts from. *)
Definition ctx0 : sm.Context := sm.SetSize sm.NewContext 600 400.

(** [filename] names a regular file of [sys] that opens, and whose reader
    returns the records [file]. *)
Definition reads (sys : System) (filename : string) (file : File) : Prop :=
  exists filePath,
    Abs sys filename = inl filePath
    /\ match Stat sys filePath with inl stat => IsDir stat | inr _ => false end = false
    /\ Open sys filePath = inl file.

(** The records that the loop hands to the marker extraction when it
    starts with the counter at [rowCount]: those for which the test of
    lines 107 and 109 lets control reach line 110. *)
Fixpoint examined (limit rowCount : Z) (file : File) : list (list string) :=
  match file with
  | [] => []
  | record :: rest =>
      let rowCount := wrap64 (rowCount + 1) in
      if negb (rowCount =? 0) && ((limit =? 0) || (rowCount <? limit))
      then record :: examined limit rowCount rest
      else examined limit rowCount rest
  end.

(** Marker extraction over a list of records, in order. *)
Fixpoint markRows (mode : string) (rows : list (list string)) (ctx : sm.Context)
  : outcome sm.Context :=
  match rows with
  | [] => Returns ctx
  | record :: rest => ctx <- markRow mode record ctx ;; markRows mode rest ctx
  end.

(** A system with one regular file, for examples. *)
Definition oneFile (name : string) (file : File) : System :=
  mkSystem
    (fun f => inl ("/" ++ f))
    (fun p => if (p =? "/" ++ name)%string then inl (mkFileInfo false)
              else inr (PathError "stat" p))
    (fun p => if (p =? "/" ++ name)%string then inl file
              else inr (PathError "open" p)).

(** A record of thirteen fields with [origin] at index 9 and [destination]
    at index 12. *)
Definition trip (origin destination : string) : list string :=
  ["1"; "a"; "b"; "c"; "d"; "e"; "f"; "g"; "h"; origin; "j"; "k"; destination].

Definition header : list string :=
  ["id"; "c1"; "c2"; "c3"; "c4"; "c5"; "c6"; "c7"; "c8"; "origin"; "c10"; "c11";
   "destination"].

(** A header and five data rows. *)
Definition fiveTrips : File :=
  [header; trip "0.5,100" "1.5,120"; trip "-999,-999" "1.5,120";
   trip "abc,12.0" "1.5,120"; trip "2.5,101" "3,130"; trip "4,110" "5,111"].

(** A file without any row. *)
Definition noRows : File := [].

(** A data row of ten fields whose origin field is empty. *)
Definition tenFields : list string :=
  ["1"; "a"; "b"; "c"; "d"; "e"; "f"; "g"; "h"; ""].

(** The markers that an examined record adds to the context: the origin
    in green and the destination in red when both coordinate fields are
    there and parse, none otherwise. *)
Definition rowMarkers (record : list string) : list sm.Marker :=
  match nth_error record 9, nth_error record 12 with
  | Some field9, Some field12 =>
      match getLatLong field9, getLatLong field12 with
      | (x1, y1, None), (x2, y2, None) =>
          [sm.NewMarker (s2.LatLngFromDegrees x1 y1) green 4;
           sm.NewMarker (s2.LatLngFromDegrees x2 y2) red 4]
      | _, _ => []
      end
  | _, _ => []
  end.

(** The path that an examined record adds in line mode. *)
Definition rowPaths (record : list string) : list sm.Path :=
  match nth_error record 9, nth_error record 12 with
  | Some field9, Some field12 =>
      match getLatLong field9, getLatLong field12 with
      | (x1, y1, None), (x2, y2, None) =>
          [sm.NewPath [s2.LatLngFromDegrees x1 y1; s2.LatLngFromDegrees x2 y2] black 1]
      | _, _ => []
      end
  | _, _ => []
  end.

(** The records on which marker extraction does not index out of range:
    field 9 is there and, when it parses, so is field 12. *)
Definition safe (record : list string) : bool :=
  match nth_error record 9 with
  | None => false
  | Some field9 =>
      match errOf (getLatLong field9) with
      | Some _ => true
      | None => (13 <=? List.length record)%nat
      end
  end.

(** ** The second revision of the parser, lines 290 to 317

    The same function with a smaller bounding box, written as literals. *)

Module earlier.

Set Warnings "-inexact-float".

Definition outOfRange (x y : float) : bool :=
  (y <? 95.1125)%float || (112.874722 <? y)%float
  || (5.792222 <? x)%float || (x <? -9.128333)%float.

Set Warnings "inexact-float".

Definition getLatLong (latlong : string) : float * float * err_t :=
  if (latlong =? "")%string || (latlong =? ",")%string || (latlong =? "-999,-999")%string
  then (0%float, 0%float, Some ErrLatLong)
  else
    let xy := strings.Split latlong "," in
    if negb (List.length xy =? 2)%nat then (0%float, 0%float, Some ErrLatLong)
    else
      let '(x, err) := strconv.ParseFloat (strings.TrimSpace (nth 0 xy "")) in
      match err with
      | Some _ => (0%float, 0%float, err)
      | None =>
          let '(y, err) := strconv.ParseFloat (strings.TrimSpace (nth 1 xy "")) in
          match err with
          | Some _ => (0%float, 0%float, err)
          | None =>
              if outOfRange x y then (0%float, 0%float, Some ErrLatLongOutOfRange)
              else (x, y, err)
          end
      end.

End earlier.

(** ** The order of binary64 numbers, as an order on triples of integers

    A number that is not a NaN has a key: its class (-2 and 2 for the
    infinities, -1 and 1 for the finite numbers, 0 for the zeros), then
    exponent and mantissa, negated for negative numbers.  [SFcompare] is
    the lexicographic comparison of keys. *)
Definition SFkey (f : spec_float) : option (Z * Z * Z) :=
  match f with
  | S754_nan => None
  | S754_zero _ => Some (0, 0, 0)
  | S754_infinity s => Some (if s then -2 else 2, 0, 0)
  | S754_finite s m e => Some (if s then (-1, - e, Zneg m) else (1, e, Zpos m))
  end.

Definition lex3 (a b : Z * Z * Z) : comparison :=
  let '(a1, a2, a3) := a in
  let '(b1, b2, b3) := b in
  match a1 ?= b1 with
  | Eq => match a2 ?= b2 with Eq => a3 ?= b3 | c => c end
  | c => c
  end.

Definition lexlt (a b : Z * Z * Z) : Prop :=
  let '(a1, a2, a3) := a in
  let '(b1, b2, b3) := b in
  a1 < b1 \/ (a1 = b1 /\ (a2 < b2 \/ (a2 = b2 /\ a3 < b3))).

Definition lexle (a b : Z * Z * Z) : Prop := lexlt a b \/ a = b.

(** The context after the one valid row [trip "0.5,100" "1.5,120"]. *)
Definition oneTrip (line : bool) : sm.Context :=
  sm.mkContext 600 400
    [sm.NewMarker (s2.LatLngFromDegrees 0.5 100) green 4;
     sm.NewMarker (s2.LatLngFromDegrees 1.5 120) red 4]
    (if line
     then [sm.NewPath [s2.LatLngFromDegrees 0.5 100; s2.LatLngFromDegrees 1.5 120]
             black 1]
     else []).

(** No byte of [s] is a slash. *)
Fixpoint noSlash (s : string) : bool :=
  match s with
  | EmptyString => true
  | String c s' => negb (Ascii.eqb c "/") && noSlash s'
  end.

(** The world in which everything succeeds and no "images" directory
    exists yet. *)
Definition fairWorld (unix : Z) : World :=
  mkWorld (fun ctx => inl (ImageOf ctx)) (fun _ => true) (fun _ _ => None) unix.

(** * Properties *)

Arguments step : simpl never.
Arguments markRow : simpl never.
Arguments getLatLong : simpl never.

(** ** Comparisons of binary64 numbers *)

Lemma SFcompare_antisym (a b : spec_float) :
  SFcompare b a = option_map CompOpp (SFcompare a b).
Proof.
  destruct a as [sa|sa| |sa ma ea], b as [sb|sb| |sb mb eb]; simpl;
    try reflexivity;
    try (destruct sa; reflexivity); try (destruct sb; reflexivity);
    try (destruct sa, sb; reflexivity).
  pose proof (Pos.compare_cont_antisym ma mb Eq) as Hc. simpl in Hc.
  destruct sa, sb; simpl; try reflexivity;
    rewrite (Z.compare_antisym ea eb); destruct (ea ?= eb); simpl;
    try reflexivity;
    rewrite <- Hc; destruct (Pos.compare_cont Eq ma mb); reflexivity.
Qed.

Lemma leb_ltb_false (x y : float) :
  (x <=? y)%float = true -> (y <? x)%float = false.
Proof.
  rewrite leb_spec, ltb_spec. unfold SFleb, SFltb.
  rewrite (SFcompare_antisym (Prim2SF x) (Prim2SF y)).
  destruct (SFcompare (Prim2SF x) (Prim2SF y)) as [[ | | ]|]; simpl;
    intros H; try reflexivity; discriminate H.
Qed.

Lemma not_nan_spec (x : float) : is_nan x = false -> Prim2SF x <> S754_nan.
Proof.
  unfold is_nan. rewrite eqb_spec. intros H E. rewrite E in H. discriminate H.
Qed.

Lemma not_ltb_leb (x y : float) :
  is_nan x = false -> is_nan y = false ->
  (y <? x)%float = false -> (x <=? y)%float = true.
Proof.
  intros Hx Hy. apply not_nan_spec in Hx. apply not_nan_spec in Hy.
  rewrite leb_spec, ltb_spec. unfold SFleb, SFltb.
  rewrite (SFcompare_antisym (Prim2SF x) (Prim2SF y)).
  destruct (Prim2SF x) as [sx|sx| |sx mx ex]; try contradiction;
    destruct (Prim2SF y) as [sy|sy| |sy my ey]; try contradiction;
    match goal with
    | |- context [SFcompare ?a ?b] => destruct (SFcompare a b) as [[ | | ]|] eqn:E
    end; simpl; intros H; try reflexivity; try discriminate H;
    simpl in E; try discriminate E; destruct sx; discriminate E.
Qed.

Lemma inside_not_outOfRange (x y : float) :
  inside x y = true -> outOfRange x y = false.
Proof.
  unfold inside, outOfRange. intros H.
  apply andb_prop in H. destruct H as [H Hw].
  apply andb_prop in H. destruct H as [H He].
  apply andb_prop in H. destruct H as [Hs Hn].
  rewrite (leb_ltb_false _ _ Hs), (leb_ltb_false _ _ Hn),
    (leb_ltb_false _ _ He), (leb_ltb_false _ _ Hw).
  reflexivity.
Qed.

Lemma ltb_negb_leb (x y : float) :
  is_nan x = false -> is_nan y = false ->
  (y <? x)%float = negb (x <=? y)%float.
Proof.
  intros Hx Hy. destruct (y <? x)%float eqn:Hlt.
  - destruct (x <=? y)%float eqn:Hle; [|reflexivity].
    rewrite (leb_ltb_false x y Hle) in Hlt. discriminate Hlt.
  - rewrite (not_ltb_leb x y Hx Hy Hlt). reflexivity.
Qed.

(** Without NaN, the range test of line 159 fails exactly outside the
    bounding box. *)
Lemma outOfRange_not_inside (x y : float) :
  is_nan x = false -> is_nan y = false ->
  outOfRange x y = negb (inside x y).
Proof.
  intros Hx Hy. unfold outOfRange, inside.
  rewrite (ltb_negb_leb SouthernmostPoint y), (ltb_negb_leb y NorthernmostPoint),
    (ltb_negb_leb x WesternmostPoint), (ltb_negb_leb EasternmostPoint x);
    auto.
  destruct (SouthernmostPoint <=? y)%float, (y <=? NorthernmostPoint)%float,
    (EasternmostPoint <=? x)%float, (x <=? WesternmostPoint)%float; reflexivity.
Qed.

(** ** The coordinate parser *)

(** The three strings that line 140 rejects. *)
Lemma getLatLong_rejects (s : string) :
  s = "" \/ s = "," \/ s = "-999,-999" ->
  getLatLong s = (0%float, 0%float, Some ErrLatLong).
Proof.
  intros [H | [H | H]]; subst s; reflexivity.
Qed.

(** What [getLatLong] returns once both parts have parsed. *)
Lemma getLatLong_parsed (s a b : string) (x y : float) :
  s <> "-999,-999" ->
  strings.Split s "," = [a; b] ->
  strconv.ParseFloat (strings.TrimSpace a) = (x, None) ->
  strconv.ParseFloat (strings.TrimSpace b) = (y, None) ->
  getLatLong s = if outOfRange x y
                 then (0%float, 0%float, Some ErrLatLongOutOfRange)
                 else (x, y, None).
Proof.
  intros Hsent Hsplit Hx Hy. unfold getLatLong.
  destruct (String.eqb_spec s "") as [E | _].
  { subst s. vm_compute in Hsplit. discriminate Hsplit. }
  destruct (String.eqb_spec s ",") as [E | _].
  { subst s. vm_compute in Hsplit. injection Hsplit as Ha Hb. subst a.
    vm_compute in Hx. discriminate Hx. }
  destruct (String.eqb_spec s "-999,-999") as [E | _]; [contradiction|].
  simpl orb. cbv iota. rewrite Hsplit. simpl List.length. simpl negb. cbv iota.
  simpl nth. rewrite Hx, Hy. reflexivity.
Qed.

(** A success of [getLatLong] went through the range test. *)
Lemma getLatLong_success (s : string) (x y : float) :
  getLatLong s = (x, y, None) -> outOfRange x y = false.
Proof.
  unfold getLatLong.
  destruct ((s =? "")%string || (s =? ",")%string || (s =? "-999,-999")%string);
    [discriminate|].
  destruct (negb (List.length (strings.Split s ",") =? 2)%nat); [discriminate|].
  destruct (strconv.ParseFloat (strings.TrimSpace (nth 0 (strings.Split s ",") "")))
    as [x' [e|]]; [discriminate|].
  destruct (strconv.ParseFloat (strings.TrimSpace (nth 1 (strings.Split s ",") "")))
    as [y' [e|]]; [discriminate|].
  destruct (outOfRange x' y') eqn:Hr; [discriminate|].
  intros H. injection H as Hx Hy. subst x' y'. exact Hr.
Qed.

(** Apart from NaN, a success of [getLatLong] is a point of the bounding
    box. *)
Lemma getLatLong_success_inside (s : string) (x y : float) :
  getLatLong s = (x, y, None) ->
  is_nan x = false -> is_nan y = false ->
  inside x y = true.
Proof.
  intros H Hx Hy. apply getLatLong_success in H. unfold outOfRange in H.
  apply orb_false_elim in H. destruct H as [H He].
  apply orb_false_elim in H. destruct H as [H Hw].
  apply orb_false_elim in H. destruct H as [Hs Hn].
  unfold inside.
  rewrite (not_ltb_leb SouthernmostPoint y), (not_ltb_leb y NorthernmostPoint),
    (not_ltb_leb EasternmostPoint x), (not_ltb_leb x WesternmostPoint);
    auto.
Qed.

(** C3: when the input splits at its comma into two parts that both parse
    as floating-point numbers [x] and [y] lying in the bounding box,
    [getLatLong] succeeds and returns the parsed pair [(x, y)] itself,
    neither normalised nor rounded. *)
Theorem getLatLong_inside (s a b : string) (x y : float) :
  strings.Split s "," = [a; b] ->
  strconv.ParseFloat (strings.TrimSpace a) = (x, None) ->
  strconv.ParseFloat (strings.TrimSpace b) = (y, None) ->
  inside x y = true ->
  getLatLong s = (x, y, None).
Proof.
  intros Hsplit Hx Hy Hin.
  assert (Hsent : s <> "-999,-999").
  { intros E. subst s. vm_compute in Hsplit. injection Hsplit as Ha Hb. subst a.
    vm_compute in Hx. injection Hx as Hx. subst x.
    unfold inside in Hin.
    replace (EasternmostPoint <=? -999)%float with false in Hin
      by (vm_compute; reflexivity).
    rewrite andb_false_r in Hin. discriminate Hin. }
  rewrite (getLatLong_parsed s a b x y Hsent Hsplit Hx Hy).
  rewrite (inside_not_outOfRange x y Hin). reflexivity.
Qed.

Lemma getLatLong_inside_witness :
  getLatLong " 1.5 , 100.25 " = (1.5%float, 100.25%float, None).
Proof.
  apply (getLatLong_inside " 1.5 , 100.25 " " 1.5 " " 100.25 ");
    vm_compute; reflexivity.
Defined.

(** C4, as the claim states it, fails at the sentinel: "-999,-999" splits
    into two parts that both parse, its x is less than the eastern bound,
    and the error is [ErrLatLong], not [ErrLatLongOutOfRange]. *)
Lemma sentinel_not_out_of_range :
  strings.Split "-999,-999" "," = ["-999"; "-999"]
  /\ strconv.ParseFloat (strings.TrimSpace "-999") = ((-999)%float, None)
  /\ ((-999) <? EasternmostPoint)%float = true
  /\ errOf (getLatLong "-999,-999") = Some ErrLatLong
  /\ errOf (getLatLong "-999,-999") <> Some ErrLatLongOutOfRange.
Proof.
  repeat split; try (vm_compute; reflexivity).
  vm_compute. discriminate.
Qed.

(** C4, amended: for an input other than the sentinel "-999,-999" that
    splits into exactly two parts both parsing as floating-point numbers
    [x] and [y], neither of them a NaN, [getLatLong] fails with
    [ErrLatLongOutOfRange] exactly when y lies outside
    [southern, northern], or x is greater than western or less than
    eastern: that is, exactly when the point is not in the bounding box. *)
Theorem getLatLong_out_of_range (s a b : string) (x y : float) :
  s <> "-999,-999" ->
  strings.Split s "," = [a; b] ->
  strconv.ParseFloat (strings.TrimSpace a) = (x, None) ->
  strconv.ParseFloat (strings.TrimSpace b) = (y, None) ->
  is_nan x = false -> is_nan y = false ->
  (errOf (getLatLong s) = Some ErrLatLongOutOfRange
   <-> ((y <? SouthernmostPoint)%float = true
        \/ (NorthernmostPoint <? y)%float = true
        \/ (WesternmostPoint <? x)%float = true
        \/ (x <? EasternmostPoint)%float = true))
  /\ (errOf (getLatLong s) = Some ErrLatLongOutOfRange <-> inside x y = false).
Proof.
  intros Hsent Hsplit Hx Hy Hnx Hny.
  rewrite (getLatLong_parsed s a b x y Hsent Hsplit Hx Hy).
  pose proof (outOfRange_not_inside x y Hnx Hny) as Hbox.
  split.
  - clear Hbox. unfold outOfRange.
    destruct (y <? SouthernmostPoint)%float, (NorthernmostPoint <? y)%float,
      (WesternmostPoint <? x)%float, (x <? EasternmostPoint)%float;
      simpl; split; intros H; try reflexivity; try discriminate H; auto;
      destruct H as [H | [H | [H | H]]]; discriminate H.
  - rewrite Hbox. destruct (inside x y); simpl; split; intros H;
      try reflexivity; discriminate H.
Qed.

Lemma getLatLong_out_of_range_witness :
  (errOf (getLatLong "95.5,12.50") = Some ErrLatLongOutOfRange
   <-> ((12.5 <? SouthernmostPoint)%float = true
        \/ (NorthernmostPoint <? 12.5)%float = true
        \/ (WesternmostPoint <? 95.5)%float = true
        \/ (95.5 <? EasternmostPoint)%float = true))
  /\ (errOf (getLatLong "95.5,12.50") = Some ErrLatLongOutOfRange
      <-> inside 95.5 12.5 = false).
Proof.
  apply (getLatLong_out_of_range "95.5,12.50" "95.5" "12.50");
    [ discriminate | vm_compute; reflexivity .. ].
Defined.

(** C5: the empty string, the bare comma, the sentinel "-999,-999" and
    every string that does not split at commas into exactly two parts make
    [getLatLong] fail with [ErrLatLong]. *)
Theorem getLatLong_malformed (s : string) :
  s = "" \/ s = "," \/ s = "-999,-999"
  \/ List.length (strings.Split s ",") <> 2%nat ->
  getLatLong s = (0%float, 0%float, Some ErrLatLong).
Proof.
  intros [H | [H | [H | H]]];
    try (apply getLatLong_rejects; auto; fail).
  unfold getLatLong.
  destruct ((s =? "")%string || (s =? ",")%string || (s =? "-999,-999")%string);
    [reflexivity|].
  apply Nat.eqb_neq in H. rewrite H. reflexivity.
Qed.

Lemma getLatLong_malformed_witness :
  getLatLong "1,2,3" = (0%float, 0%float, Some ErrLatLong).
Proof.
  apply (getLatLong_malformed "1,2,3").
  right; right; right. vm_compute. discriminate.
Defined.

(** C7 at "NaN,NaN": both parts parse, no comparison with a bound holds
    for a NaN, and [getLatLong] succeeds with two NaNs, which lie in no
    interval. *)
Theorem getLatLong_NaN :
  getLatLong "NaN,NaN" = (nan, nan, None)
  /\ is_nan nan = true
  /\ inside nan nan = false.
Proof.
  repeat split; vm_compute; reflexivity.
Qed.

(** C9: the sentinel is rejected by comparing strings.  Written with a
    space after the comma or before the first number, the same two numbers
    are parsed and the failure is [ErrLatLongOutOfRange], not [ErrLatLong]. *)
Theorem sentinel_is_exact_match :
  getLatLong "-999,-999" = (0%float, 0%float, Some ErrLatLong)
  /\ strconv.ParseFloat (strings.TrimSpace " -999") = ((-999)%float, None)
  /\ getLatLong "-999, -999" = (0%float, 0%float, Some ErrLatLongOutOfRange)
  /\ getLatLong " -999,-999" = (0%float, 0%float, Some ErrLatLongOutOfRange).
Proof.
  repeat split; vm_compute; reflexivity.
Qed.

(** ** The row loop *)

Lemma wrap64_small (z : Z) : - 2 ^ 63 <= z < 2 ^ 63 -> wrap64 z = z.
Proof.
  intros H. unfold wrap64. rewrite Z.mod_small; lia.
Qed.

Lemma index_some (record : list string) (i : nat) (field : string) :
  nth_error record i = Some field -> index record i = Returns field.
Proof.
  intros H. unfold index. rewrite H. reflexivity.
Qed.

Lemma index_none (record : list string) (i : nat) :
  (List.length record <= i)%nat -> index record i = Panics i (List.length record).
Proof.
  intros H. unfold index. apply nth_error_None in H. rewrite H. reflexivity.
Qed.

Section Loop.

Variable limit : Z.
Variable mode : string.

Lemma step_rowCount (record : list string)
  (ctx ctx' : sm.Context) (rowCount rowCount' : Z) :
  step limit mode record (ctx, rowCount) = Returns (ctx', rowCount') ->
  rowCount' = wrap64 (rowCount + 1).
Proof.
  unfold step.
  destruct (wrap64 (rowCount + 1) =? 0).
  { intros H. injection H as _ H. auto. }
  destruct ((limit =? 0) || (wrap64 (rowCount + 1) <? limit)).
  - destruct (markRow mode record ctx); simpl; intros H;
      [injection H as _ H; auto | discriminate H].
  - intros H. injection H as _ H. auto.
Qed.

(** The counter goes up by one for every record read, whatever is done
    with the record. *)
Lemma readAll_rowCount (file : File) :
  forall (ctx ctx' : sm.Context) (rowCount rowCount' : Z),
    -1 <= rowCount ->
    rowCount + Z.of_nat (List.length file) < 2 ^ 63 ->
    readAll limit mode file (ctx, rowCount) = Returns (ctx', rowCount') ->
    rowCount' = rowCount + Z.of_nat (List.length file).
Proof.
  induction file as [|record rest IH]; intros ctx ctx' rowCount rowCount' Hlo Hhi H.
  - simpl in *. injection H as _ H. lia.
  - simpl readAll in H.
    destruct (step limit mode record (ctx, rowCount)) as [[ctx1 rc1]|i n] eqn:Hstep;
      simpl in H; [|discriminate H].
    apply step_rowCount in Hstep.
    change (List.length (record :: rest)) with (S (List.length rest)) in *.
    rewrite wrap64_small in Hstep by lia. subst rc1.
    apply IH in H; lia.
Qed.

(** The context that the loop builds is the one that marker extraction
    builds over the examined records. *)
Lemma readAll_examined (file : File) :
  forall (ctx : sm.Context) (rowCount : Z),
    omap fst (readAll limit mode file (ctx, rowCount))
    = markRows mode (examined limit rowCount file) ctx.
Proof.
  induction file as [|record rest IH]; intros ctx rowCount.
  - reflexivity.
  - simpl readAll. simpl examined. unfold step.
    destruct (wrap64 (rowCount + 1) =? 0) eqn:Hz; simpl negb; simpl andb.
    { simpl bind. apply IH. }
    destruct ((limit =? 0) || (wrap64 (rowCount + 1) <? limit)); simpl bind.
    + simpl markRows. destruct (markRow mode record ctx) as [ctx1|i n]; simpl.
      * apply IH.
      * reflexivity.
    + apply IH.
Qed.

(** Which records are examined, from a counter that has passed the
    header. *)
Lemma examined_data (file : File) :
  forall rowCount : Z,
    0 <= rowCount ->
    rowCount + Z.of_nat (List.length file) < 2 ^ 63 ->
    examined limit rowCount file
    = if limit =? 0 then file else firstn (Z.to_nat (limit - 1 - rowCount)) file.
Proof.
  induction file as [|record rest IH]; intros rowCount Hlo Hhi.
  - simpl. destruct (limit =? 0); [reflexivity|]. now rewrite firstn_nil.
  - change (List.length (record :: rest)) with (S (List.length rest)) in Hhi.
    simpl examined. rewrite wrap64_small by lia.
    rewrite IH by lia.
    destruct (Z.eqb_spec (rowCount + 1) 0) as [E|_]; [lia|].
    destruct (Z.eqb_spec limit 0) as [E|Hl]; simpl; [reflexivity|].
    destruct (Z.ltb_spec (rowCount + 1) limit) as [Hlt|Hge].
    + replace (Z.to_nat (limit - 1 - rowCount))
        with (S (Z.to_nat (limit - 1 - (rowCount + 1)))) by lia.
      reflexivity.
    + replace (Z.to_nat (limit - 1 - rowCount)) with O by lia.
      replace (Z.to_nat (limit - 1 - (rowCount + 1))) with O by lia.
      reflexivity.
Qed.

(** The header is never examined. *)
Lemma examined_file (file : File) :
  Z.of_nat (List.length file) < 2 ^ 63 ->
  examined limit (-1) file
  = if limit =? 0 then tl file else firstn (Z.to_nat (limit - 1)) (tl file).
Proof.
  destruct file as [|hd data]; intros H.
  - simpl. destruct (limit =? 0); [reflexivity|]. now rewrite firstn_nil.
  - change (List.length (hd :: data)) with (S (List.length data)) in H.
    cbn [examined]. rewrite wrap64_small by lia.
    change (-1 + 1) with 0. rewrite Z.eqb_refl. cbn [negb andb].
    rewrite examined_data by lia.
    now rewrite Z.sub_0_r.
Qed.

Lemma readAll_app (pre post : File) :
  forall st : sm.Context * Z,
    readAll limit mode (pre ++ post)%list st
    = (st <- readAll limit mode pre st ;; readAll limit mode post st).
Proof.
  induction pre as [|record rest IH]; intros st.
  - reflexivity.
  - simpl. destruct (step limit mode record st) as [st1|i n]; simpl.
    + apply IH.
    + reflexivity.
Qed.

(** Marker extraction does not panic on rows of thirteen fields or more. *)
Lemma markRow_returns (record : list string) (ctx : sm.Context) :
  (13 <= List.length record)%nat ->
  exists ctx', markRow mode record ctx = Returns ctx'.
Proof.
  intros H. unfold markRow, index.
  destruct (nth_error record 9) as [f9|] eqn:H9;
    [|apply nth_error_None in H9; lia].
  destruct (nth_error record 12) as [f12|] eqn:H12;
    [|apply nth_error_None in H12; lia].
  simpl. destruct (getLatLong f9) as [[x1 y1] [e|]]; [eauto|].
  simpl. destruct (getLatLong f12) as [[x2 y2] [e|]]; [eauto|].
  destruct (mode =? "line")%string; eauto.
Qed.

Lemma markRows_returns (rows : list (list string)) :
  Forall (fun record => (13 <= List.length record)%nat) rows ->
  forall ctx, exists ctx', markRows mode rows ctx = Returns ctx'.
Proof.
  induction 1 as [|record rest Hr _ IH]; intros ctx.
  - simpl. eauto.
  - simpl. destruct (markRow_returns record ctx Hr) as [ctx1 E].
    rewrite E. simpl. apply IH.
Qed.

(** What the loop does with an examined record. *)
Lemma step_examined (record : list string)
  (ctx : sm.Context) (rowCount : Z) :
  wrap64 (rowCount + 1) <> 0 ->
  limit = 0 \/ wrap64 (rowCount + 1) < limit ->
  step limit mode record (ctx, rowCount)
  = (ctx <- markRow mode record ctx ;; Returns (ctx, wrap64 (rowCount + 1))).
Proof.
  intros Hnz Hsel. unfold step.
  destruct (Z.eqb_spec (wrap64 (rowCount + 1)) 0) as [E|_]; [contradiction|].
  destruct Hsel as [E|Hlt].
  - subst limit. reflexivity.
  - apply Z.ltb_lt in Hlt. rewrite Hlt, orb_true_r. reflexivity.
Qed.

(** A record whose origin or destination field does not parse leaves the
    context as it is. *)
Lemma markRow_parse_failure (record : list string)
  (field9 : string) (ctx : sm.Context) :
  nth_error record 9 = Some field9 ->
  errOf (getLatLong field9) <> None
  \/ (exists field12,
         nth_error record 12 = Some field12
         /\ errOf (getLatLong field12) <> None) ->
  markRow mode record ctx = Returns ctx.
Proof.
  intros H9 Hfail. unfold markRow. rewrite (index_some _ _ _ H9). cbn [bind].
  destruct (getLatLong field9) as [[x1 y1] [e1|]]; [reflexivity|].
  destruct Hfail as [Hf | (field12 & H12 & Hf)].
  - exfalso. apply Hf. reflexivity.
  - rewrite (index_some _ _ _ H12). cbn [bind].
    destruct (getLatLong field12) as [[x2 y2] [e2|]]; [reflexivity|].
    exfalso. apply Hf. reflexivity.
Qed.

End Loop.

(** Once the file is open, [markLocations] is its loop. *)
Lemma markLocations_reads (sys : System) (limit : Z) (filename mode : string)
  (file : File) :
  reads sys filename file ->
  markLocations sys limit filename mode
  = (st <- readAll limit mode file (ctx0, -1) ;; Returns (fst st, snd st, None)).
Proof.
  intros (filePath & Habs & Hstat & Hopen).
  unfold markLocations. rewrite Habs, Hstat, Hopen. reflexivity.
Qed.

Lemma omap_context (m : outcome (sm.Context * Z)) :
  omap (fun r : sm.Context * Z * err_t => fst (fst r))
    (st <- m ;; Returns (fst st, snd st, None))
  = omap fst m.
Proof.
  destruct m; reflexivity.
Qed.

(** C1: the context that [markLocations] returns is built from the
    examined records alone; with a limit N > 0 they are the first N - 1
    data rows, so at most N of them, however long the file is, and no row
    whose index has reached the limit is among them; with limit 0 they are
    all the data rows. *)
Theorem markLocations_limit (sys : System) (filename mode : string)
  (file : File) (limit : Z) :
  reads sys filename file ->
  Z.of_nat (List.length file) < 2 ^ 63 ->
  omap (fun r => fst (fst r)) (markLocations sys limit filename mode)
  = markRows mode (examined limit (-1) file) ctx0
  /\ (0 < limit ->
      examined limit (-1) file = firstn (Z.to_nat (limit - 1)) (tl file)
      /\ Z.of_nat (List.length (examined limit (-1) file)) <= limit)
  /\ (limit = 0 -> examined limit (-1) file = tl file).
Proof.
  intros Hreads Hlen. split; [|split].
  - rewrite (markLocations_reads sys limit filename mode file Hreads).
    rewrite omap_context. apply readAll_examined.
  - intros Hpos. rewrite (examined_file limit file Hlen).
    destruct (Z.eqb_spec limit 0) as [E|_]; [lia|].
    split; [reflexivity|].
    pose proof (firstn_le_length (Z.to_nat (limit - 1)) (tl file)) as Hle.
    lia.
  - intros E. rewrite (examined_file limit file Hlen). subst limit. reflexivity.
Qed.

Lemma markLocations_limit_witness :
  omap (fun r => fst (fst r))
    (markLocations (oneFile "trips.csv" fiveTrips) 3 "trips.csv" "line")
  = markRows "line" (examined 3 (-1) fiveTrips) ctx0
  /\ (0 < 3 ->
      examined 3 (-1) fiveTrips = firstn (Z.to_nat (3 - 1)) (tl fiveTrips)
      /\ Z.of_nat (List.length (examined 3 (-1) fiveTrips)) <= 3)
  /\ (3 = 0 -> examined 3 (-1) fiveTrips = tl fiveTrips).
Proof.
  apply (markLocations_limit (oneFile "trips.csv" fiveTrips) "trips.csv" "line"
           fiveTrips 3).
  - exists "/trips.csv". repeat split; reflexivity.
  - vm_compute. reflexivity.
Defined.

(** C2, as the claim states it, fails: with limit 1 on a file of five data
    rows no data row is examined, and the count returned is 5. *)
Lemma rowCount_ignores_limit :
  markLocations (oneFile "trips.csv" fiveTrips) 1 "trips.csv" "plot"
  = Returns (ctx0, 5, None)
  /\ examined 1 (-1) fiveTrips = [].
Proof.
  split; vm_compute; reflexivity.
Qed.

(** C2, amended: on a file made of a header and data rows, the row count
    that [markLocations] returns is the number of data rows of the file,
    read to its end whatever the limit is, and however many rows produced
    valid coordinates; it does return when every examined row has its
    thirteen fields.  The rows counted are the rows examined when the limit
    is 0, and their number is the number of rows examined exactly when the
    limit is 0, or the file has no data row, or the limit is greater than
    the number of data rows. *)
Theorem markLocations_rowCount (sys : System) (filename mode : string)
  (hd : list string) (data : File) (limit : Z) :
  reads sys filename (hd :: data) ->
  Z.of_nat (List.length (hd :: data)) < 2 ^ 63 ->
  (forall ctx n e,
      markLocations sys limit filename mode = Returns (ctx, n, e) ->
      n = Z.of_nat (List.length data) /\ e = None)
  /\ (Forall (fun record => (13 <= List.length record)%nat)
        (examined limit (-1) (hd :: data)) ->
      exists ctx,
        markLocations sys limit filename mode
        = Returns (ctx, Z.of_nat (List.length data), None))
  /\ (limit = 0 -> examined limit (-1) (hd :: data) = data)
  /\ (List.length (examined limit (-1) (hd :: data)) = List.length data
      <-> (limit = 0 \/ data = [] \/ Z.of_nat (List.length data) < limit)).
Proof.
  intros Hreads Hlen.
  rewrite (markLocations_reads sys limit filename mode _ Hreads).
  assert (Hcount : forall c rc,
             readAll limit mode (hd :: data) (ctx0, -1) = Returns (c, rc) ->
             rc = Z.of_nat (List.length data)).
  { intros c rc Hrun. apply readAll_rowCount in Hrun; [|lia|lia].
    change (List.length (hd :: data)) with (S (List.length data)) in Hrun. lia. }
  split; [|split; [|split]].
  - intros ctx n e H.
    destruct (readAll limit mode (hd :: data) (ctx0, -1)) as [[c rc]|i k] eqn:Hrun;
      [|discriminate H].
    simpl in H. injection H as _ Hn He. subst n e.
    split; [exact (Hcount c rc eq_refl) | reflexivity].
  - intros Hall.
    destruct (markRows_returns mode _ Hall ctx0) as [ctx1 Hrows].
    rewrite <- readAll_examined in Hrows.
    destruct (readAll limit mode (hd :: data) (ctx0, -1)) as [[c rc]|i k] eqn:Hrun;
      [|discriminate Hrows].
    exists c. simpl. rewrite (Hcount c rc eq_refl). reflexivity.
  - intros E. rewrite (examined_file limit _ Hlen). subst limit. reflexivity.
  - rewrite (examined_file limit _ Hlen). cbn [tl].
    destruct (Z.eqb_spec limit 0) as [E|Hne]; [split; auto|].
    rewrite length_firstn.
    assert (Hnil : data = [] <-> List.length data = 0%nat)
      by (destruct data; simpl; split; intros H; try reflexivity; discriminate H).
    rewrite Hnil. lia.
Qed.

Lemma markLocations_rowCount_witness :
  (forall ctx n e,
      markLocations (oneFile "trips.csv" fiveTrips) 3 "trips.csv" "plot"
      = Returns (ctx, n, e) ->
      n = Z.of_nat (List.length (tl fiveTrips)) /\ e = None)
  /\ (Forall (fun record => (13 <= List.length record)%nat)
        (examined 3 (-1) fiveTrips) ->
      exists ctx,
        markLocations (oneFile "trips.csv" fiveTrips) 3 "trips.csv" "plot"
        = Returns (ctx, Z.of_nat (List.length (tl fiveTrips)), None))
  /\ (3 = 0 -> examined 3 (-1) fiveTrips = tl fiveTrips)
  /\ (List.length (examined 3 (-1) fiveTrips) = List.length (tl fiveTrips)
      <-> (3 = 0 \/ tl fiveTrips = [] \/ Z.of_nat (List.length (tl fiveTrips)) < 3)).
Proof.
  apply (markLocations_rowCount (oneFile "trips.csv" fiveTrips) "trips.csv" "plot"
           header (tl fiveTrips) 3).
  - exists "/trips.csv". repeat split; reflexivity.
  - vm_compute. reflexivity.
Defined.

(** C10: on an input without any row, not even a header, [markLocations]
    succeeds and returns the row count -1; the count starts at -1 and goes
    up by one for every row read, the header included. *)
Theorem markLocations_no_rows (sys : System) (limit : Z) (filename mode : string)
  (file : File) :
  reads sys filename file ->
  Z.of_nat (List.length file) < 2 ^ 63 ->
  (file = [] -> markLocations sys limit filename mode = Returns (ctx0, -1, None))
  /\ (forall ctx n e,
         markLocations sys limit filename mode = Returns (ctx, n, e) ->
         n = -1 + Z.of_nat (List.length file)).
Proof.
  intros Hreads Hlen.
  rewrite (markLocations_reads sys limit filename mode file Hreads). split.
  - intros E. subst file. reflexivity.
  - intros ctx n e H.
    destruct (readAll limit mode file (ctx0, -1)) as [[c rc]|i k] eqn:Hrun;
      [|discriminate H].
    apply readAll_rowCount in Hrun; [|lia|lia].
    simpl in H. injection H as _ Hn _. lia.
Qed.

Lemma markLocations_no_rows_witness :
  (noRows = [] ->
   markLocations (oneFile "empty.csv" noRows) 0 "empty.csv" "plot"
   = Returns (ctx0, -1, None))
  /\ (forall ctx n e,
         markLocations (oneFile "empty.csv" noRows) 0 "empty.csv" "plot"
         = Returns (ctx, n, e) ->
         n = -1 + Z.of_nat (List.length noRows)).
Proof.
  apply (markLocations_no_rows (oneFile "empty.csv" noRows) 0 "empty.csv" "plot"
           noRows).
  - exists "/empty.csv". repeat split; reflexivity.
  - vm_compute. reflexivity.
Defined.

(** C6: when the origin field (index 9) or the destination field (index
    12) of a row does not parse, the row adds no marker and no path (no
    origin marker either when only the destination fails), the loop goes on
    to the next row with the context unchanged, and the error that
    [markLocations] returns after reading the file is [nil]. *)
Theorem parse_failure_skips_row (limit : Z) (mode : string)
  (record : list string) (field9 : string) :
  nth_error record 9 = Some field9 ->
  errOf (getLatLong field9) <> None
  \/ (exists field12,
         nth_error record 12 = Some field12
         /\ errOf (getLatLong field12) <> None) ->
  (forall ctx, markRow mode record ctx = Returns ctx)
  /\ (forall ctx rowCount,
         step limit mode record (ctx, rowCount)
         = Returns (ctx, wrap64 (rowCount + 1)))
  /\ (forall pre post st,
         readAll limit mode (pre ++ record :: post)%list st
         = (st1 <- readAll limit mode pre st ;;
            readAll limit mode post (fst st1, wrap64 (snd st1 + 1))))
  /\ (forall sys filename file ctx n e,
         reads sys filename file ->
         markLocations sys limit filename mode = Returns (ctx, n, e) ->
         e = None).
Proof.
  intros H9 Hfail.
  assert (Hrow : forall ctx, markRow mode record ctx = Returns ctx)
    by (intros ctx; exact (markRow_parse_failure mode record field9 ctx H9 Hfail)).
  assert (Hstep : forall ctx rowCount,
             step limit mode record (ctx, rowCount)
             = Returns (ctx, wrap64 (rowCount + 1))).
  { intros ctx rowCount. unfold step. rewrite Hrow.
    destruct (wrap64 (rowCount + 1) =? 0); [reflexivity|].
    destruct ((limit =? 0) || (wrap64 (rowCount + 1) <? limit)); reflexivity. }
  repeat split.
  - exact Hrow.
  - exact Hstep.
  - intros pre post st. rewrite readAll_app.
    destruct (readAll limit mode pre st) as [[c rc]|i k]; [|reflexivity].
    simpl. rewrite Hstep. reflexivity.
  - intros sys filename file ctx n e Hreads H.
    rewrite (markLocations_reads sys limit filename mode file Hreads) in H.
    destruct (readAll limit mode file (ctx0, -1)) as [st|i k];
      [|discriminate H].
    simpl in H. injection H as _ _ He. symmetry. exact He.
Qed.

Lemma parse_failure_skips_row_witness :
  (forall ctx, markRow "line" (trip "abc,12.0" "1.5,120") ctx = Returns ctx)
  /\ (forall ctx rowCount,
         step 0 "line" (trip "abc,12.0" "1.5,120") (ctx, rowCount)
         = Returns (ctx, wrap64 (rowCount + 1)))
  /\ (forall pre post st,
         readAll 0 "line" (pre ++ trip "abc,12.0" "1.5,120" :: post)%list st
         = (st1 <- readAll 0 "line" pre st ;;
            readAll 0 "line" post (fst st1, wrap64 (snd st1 + 1))))
  /\ (forall sys filename file ctx n e,
         reads sys filename file ->
         markLocations sys 0 filename "line" = Returns (ctx, n, e) ->
         e = None).
Proof.
  apply (parse_failure_skips_row 0 "line" (trip "abc,12.0" "1.5,120") "abc,12.0").
  - reflexivity.
  - left. vm_compute. discriminate.
Defined.

(** C8, as the claim states it, fails: a data row of ten fields whose
    origin field does not parse is examined and skipped; index 12 is never
    reached and the run ends normally. *)
Lemma short_row_skipped :
  (List.length tenFields < 13)%nat
  /\ examined 0 (-1) [header; tenFields] = [tenFields]
  /\ markLocations (oneFile "trips.csv" [header; tenFields]) 0 "trips.csv" "plot"
     = Returns (ctx0, 1, None).
Proof.
  split; [simpl; lia | split; vm_compute; reflexivity].
Qed.

(** C8, amended: an examined data row of fewer than ten fields makes the
    run panic on index 9; an examined data row of ten to twelve fields
    whose origin field parses makes it panic on index 12; an examined data
    row of ten to twelve fields whose origin field does not parse is
    skipped and the loop goes on. *)
Theorem short_row_panics (sys : System) (filename mode : string) (limit : Z)
  (pre post : File) (record : list string) (ctx : sm.Context) (rowCount : Z) :
  reads sys filename (pre ++ record :: post)%list ->
  readAll limit mode pre (ctx0, -1) = Returns (ctx, rowCount) ->
  wrap64 (rowCount + 1) <> 0 ->
  limit = 0 \/ wrap64 (rowCount + 1) < limit ->
  (List.length record < 13)%nat ->
  ((List.length record < 10)%nat ->
   markLocations sys limit filename mode = Panics 9 (List.length record))
  /\ (forall field9,
         nth_error record 9 = Some field9 ->
         errOf (getLatLong field9) = None ->
         markLocations sys limit filename mode = Panics 12 (List.length record))
  /\ (forall field9,
         nth_error record 9 = Some field9 ->
         errOf (getLatLong field9) <> None ->
         markLocations sys limit filename mode
         = (st <- readAll limit mode post (ctx, wrap64 (rowCount + 1)) ;;
            Returns (fst st, snd st, None))).
Proof.
  intros Hreads Hpre Hnz Hsel Hshort.
  rewrite (markLocations_reads sys limit filename mode _ Hreads).
  rewrite readAll_app, Hpre. cbn [bind readAll].
  rewrite (step_examined limit mode record ctx rowCount Hnz Hsel).
  repeat split.
  - intros Hlt. unfold markRow. rewrite index_none by lia. reflexivity.
  - intros field9 H9 Hok. unfold markRow.
    rewrite (index_some _ _ _ H9). cbn [bind].
    destruct (getLatLong field9) as [[x1 y1] [e1|]]; [discriminate Hok|].
    rewrite index_none by lia. reflexivity.
  - intros field9 H9 Hfail.
    rewrite (markRow_parse_failure mode record field9 ctx H9 (or_introl Hfail)).
    reflexivity.
Qed.

Lemma short_row_panics_witness :
  ((List.length ["7"; "x"] < 10)%nat ->
   markLocations (oneFile "trips.csv" [header; ["7"; "x"]]) 0 "trips.csv" "plot"
   = Panics 9 (List.length ["7"; "x"]))
  /\ (forall field9,
         nth_error ["7"; "x"] 9 = Some field9 ->
         errOf (getLatLong field9) = None ->
         markLocations (oneFile "trips.csv" [header; ["7"; "x"]]) 0 "trips.csv" "plot"
         = Panics 12 (List.length ["7"; "x"]))
  /\ (forall field9,
         nth_error ["7"; "x"] 9 = Some field9 ->
         errOf (getLatLong field9) <> None ->
         markLocations (oneFile "trips.csv" [header; ["7"; "x"]]) 0 "trips.csv" "plot"
         = (st <- readAll 0 "plot" [] (ctx0, wrap64 (0 + 1)) ;;
            Returns (fst st, snd st, None))).
Proof.
  apply (short_row_panics (oneFile "trips.csv" [header; ["7"; "x"]]) "trips.csv"
           "plot" 0 [header] [] ["7"; "x"] ctx0 0).
  - exists "/trips.csv". repeat split; reflexivity.
  - reflexivity.
  - vm_compute. discriminate.
  - left. reflexivity.
  - simpl. lia.
Defined.

(** ** Two runs on small files *)

(** A header, a row with valid coordinates and a row whose origin is the
    sentinel: two markers, no path in plot mode, row count 2. *)
Example two_rows_plot :
  markLocations
    (oneFile "trips.csv" [header; trip "0.5,100" "1.5,120"; trip "-999,-999" "1.5,120"])
    0 "trips.csv" "plot"
  = Returns
      (sm.mkContext 600 400
         [sm.NewMarker (s2.LatLngFromDegrees 0.5 100) green 4;
          sm.NewMarker (s2.LatLngFromDegrees 1.5 120) red 4]
         [],
       2, None).
Proof.
  vm_compute. reflexivity.
Qed.

(** The same file in line mode: one path from the origin to the
    destination of the valid row. *)
Example two_rows_line :
  markLocations
    (oneFile "trips.csv" [header; trip "0.5,100" "1.5,120"; trip "-999,-999" "1.5,120"])
    0 "trips.csv" "line"
  = Returns
      (sm.mkContext 600 400
         [sm.NewMarker (s2.LatLngFromDegrees 0.5 100) green 4;
          sm.NewMarker (s2.LatLngFromDegrees 1.5 120) red 4]
         [sm.NewPath [s2.LatLngFromDegrees 0.5 100; s2.LatLngFromDegrees 1.5 120]
            black 1],
       2, None).
Proof.
  vm_compute. reflexivity.
Qed.

(** * Further properties *)

(** ** The coordinate parser, continued *)

(** An error of [ParseFloat] is a [NumError] that names the function and
    the text it was given. *)
Lemma ParseFloat_error (s : string) (f : float) (e : error) :
  strconv.ParseFloat s = (f, Some e) ->
  exists kind, e = NumError "ParseFloat" s kind.
Proof.
  unfold strconv.ParseFloat.
  destruct (strconv.atof64 s) as [[v n] [[ | ]|]].
  - intros H. injection H as _ H. subst e. eauto.
  - destruct (n =? String.length s)%nat; intros H; injection H as _ H;
      subst e; eauto.
  - destruct (n =? String.length s)%nat; intros H; [discriminate H|].
    injection H as _ H. subst e. eauto.
Qed.

(** The first lines of [getLatLong] on an input that splits in two. *)
Lemma getLatLong_split (s a b : string) :
  s <> "," -> s <> "-999,-999" ->
  strings.Split s "," = [a; b] ->
  getLatLong s
  = let '(x, err) := strconv.ParseFloat (strings.TrimSpace a) in
    match err with
    | Some _ => (0%float, 0%float, err)
    | None =>
        let '(y, err) := strconv.ParseFloat (strings.TrimSpace b) in
        match err with
        | Some _ => (0%float, 0%float, err)
        | None =>
            if outOfRange x y then (0%float, 0%float, Some ErrLatLongOutOfRange)
            else (x, y, err)
        end
    end.
Proof.
  intros Hcomma Hsent Hsplit. unfold getLatLong.
  destruct (String.eqb_spec s "") as [E | _].
  { subst s. vm_compute in Hsplit. discriminate Hsplit. }
  destruct (String.eqb_spec s ",") as [E | _]; [contradiction|].
  destruct (String.eqb_spec s "-999,-999") as [E | _]; [contradiction|].
  simpl orb. cbv iota. rewrite Hsplit. reflexivity.
Qed.

(** X1: when a part is not a number, the failure of [getLatLong] is the
    error of [ParseFloat] on that part, trimmed; the first part is parsed
    first, so its error wins. *)
Theorem getLatLong_not_a_number (s a b : string) :
  s <> "," -> s <> "-999,-999" ->
  strings.Split s "," = [a; b] ->
  (forall v e,
      strconv.ParseFloat (strings.TrimSpace a) = (v, Some e) ->
      getLatLong s = (0%float, 0%float, Some e)
      /\ exists kind, e = NumError "ParseFloat" (strings.TrimSpace a) kind)
  /\ (forall x v e,
         strconv.ParseFloat (strings.TrimSpace a) = (x, None) ->
         strconv.ParseFloat (strings.TrimSpace b) = (v, Some e) ->
         getLatLong s = (0%float, 0%float, Some e)
         /\ exists kind, e = NumError "ParseFloat" (strings.TrimSpace b) kind).
Proof.
  intros Hcomma Hsent Hsplit.
  rewrite (getLatLong_split s a b Hcomma Hsent Hsplit). split.
  - intros v e Ha. rewrite Ha. split; [reflexivity|].
    exact (ParseFloat_error _ _ _ Ha).
  - intros x v e Ha Hb. rewrite Ha, Hb. split; [reflexivity|].
    exact (ParseFloat_error _ _ _ Hb).
Qed.

Lemma getLatLong_not_a_number_witness :
  (forall v e,
      strconv.ParseFloat (strings.TrimSpace "abc") = (v, Some e) ->
      getLatLong "abc,1e999" = (0%float, 0%float, Some e)
      /\ exists kind, e = NumError "ParseFloat" (strings.TrimSpace "abc") kind)
  /\ (forall x v e,
         strconv.ParseFloat (strings.TrimSpace "abc") = (x, None) ->
         strconv.ParseFloat (strings.TrimSpace "1e999") = (v, Some e) ->
         getLatLong "abc,1e999" = (0%float, 0%float, Some e)
         /\ exists kind, e = NumError "ParseFloat" (strings.TrimSpace "1e999") kind).
Proof.
  apply (getLatLong_not_a_number "abc,1e999" "abc" "1e999");
    [ discriminate | discriminate | vm_compute; reflexivity ].
Defined.

(** X2: every failure of [getLatLong] returns the pair (0, 0), and its
    error is [ErrLatLong], [ErrLatLongOutOfRange] or a [NumError] of
    [ParseFloat]: never [ErrBadInput], never an error of the file system. *)
Theorem getLatLong_failure (s : string) (x y : float) (e : error) :
  getLatLong s = (x, y, Some e) ->
  x = 0%float /\ y = 0%float
  /\ (e = ErrLatLong \/ e = ErrLatLongOutOfRange
      \/ exists num kind, e = NumError "ParseFloat" num kind).
Proof.
  unfold getLatLong.
  destruct ((s =? "")%string || (s =? ",")%string || (s =? "-999,-999")%string).
  { intros H. injection H as Hx Hy He. subst. auto. }
  destruct (negb (List.length (strings.Split s ",") =? 2)%nat).
  { intros H. injection H as Hx Hy He. subst. auto. }
  destruct (strconv.ParseFloat (strings.TrimSpace (nth 0 (strings.Split s ",") "")))
    as [x' [ex|]] eqn:Ha.
  { intros H. injection H as Hx Hy He. subst x y e.
    destruct (ParseFloat_error _ _ _ Ha) as [kind Hk].
    repeat split; try reflexivity. right; right. eauto. }
  destruct (strconv.ParseFloat (strings.TrimSpace (nth 1 (strings.Split s ",") "")))
    as [y' [ey|]] eqn:Hb.
  { intros H. injection H as Hx Hy He. subst x y e.
    destruct (ParseFloat_error _ _ _ Hb) as [kind Hk].
    repeat split; try reflexivity. right; right. eauto. }
  destruct (outOfRange x' y'); intros H; [|discriminate H].
  injection H as Hx Hy He. subst. auto.
Qed.

Lemma getLatLong_failure_witness :
  0%float = 0%float /\ 0%float = 0%float
  /\ (NumError "ParseFloat" "abc" ErrSyntax = ErrLatLong
      \/ NumError "ParseFloat" "abc" ErrSyntax = ErrLatLongOutOfRange
      \/ exists num kind,
          NumError "ParseFloat" "abc" ErrSyntax = NumError "ParseFloat" num kind).
Proof.
  apply (getLatLong_failure "abc,12.0" 0%float 0%float
           (NumError "ParseFloat" "abc" ErrSyntax)).
  vm_compute. reflexivity.
Defined.

(** X3: a success of [getLatLong] comes from an input other than the
    sentinel that splits at its commas into exactly two parts, both of
    which parse, trimmed, to the pair returned, and the pair passed the
    range test. *)
Theorem getLatLong_success_parts (s : string) (x y : float) :
  getLatLong s = (x, y, None) ->
  s <> "-999,-999"
  /\ exists a b,
      strings.Split s "," = [a; b]
      /\ strconv.ParseFloat (strings.TrimSpace a) = (x, None)
      /\ strconv.ParseFloat (strings.TrimSpace b) = (y, None)
      /\ outOfRange x y = false.
Proof.
  intros H. pose proof (getLatLong_success s x y H) as Hrange.
  unfold getLatLong in H.
  destruct (String.eqb_spec s "-999,-999") as [E | Hs].
  { rewrite orb_true_r in H. cbv iota in H. discriminate H. }
  split; [exact Hs|].
  destruct ((s =? "")%string || (s =? ",")%string || false); [discriminate H|].
  destruct (strings.Split s ",") as [|a [|b [|c l]]]; try discriminate H.
  exists a, b. cbn [List.length Nat.eqb negb nth] in H.
  destruct (strconv.ParseFloat (strings.TrimSpace a)) as [x' [ex|]];
    [discriminate H|].
  destruct (strconv.ParseFloat (strings.TrimSpace b)) as [y' [ey|]];
    [discriminate H|].
  destruct (outOfRange x' y'); [discriminate H|].
  injection H as Hx Hy. subst x' y'. auto.
Qed.

Lemma getLatLong_success_parts_witness :
  "0.5, 100" <> "-999,-999"
  /\ exists a b,
      strings.Split "0.5, 100" "," = [a; b]
      /\ strconv.ParseFloat (strings.TrimSpace a) = (0.5%float, None)
      /\ strconv.ParseFloat (strings.TrimSpace b) = (100%float, None)
      /\ outOfRange 0.5 100 = false.
Proof.
  apply (getLatLong_success_parts "0.5, 100" 0.5%float 100%float).
  vm_compute. reflexivity.
Defined.

(** ** The order of binary64 numbers, continued *)

Lemma SFcompare_key (a b : spec_float) :
  SFcompare a b
  = match SFkey a, SFkey b with
    | Some ka, Some kb => Some (lex3 ka kb)
    | _, _ => None
    end.
Proof.
  destruct a as [sa|sa| |sa ma ea], b as [sb|sb| |sb mb eb]; simpl;
    try reflexivity;
    try (destruct sa; reflexivity); try (destruct sb; reflexivity);
    try (destruct sa, sb; reflexivity).
  destruct sa, sb; simpl; try reflexivity.
  rewrite Z.compare_opp, (Z.compare_antisym ea eb).
  destruct (ea ?= eb); reflexivity.
Qed.

Lemma lex3_Lt (a b : Z * Z * Z) : lex3 a b = Lt <-> lexlt a b.
Proof.
  destruct a as [[a1 a2] a3], b as [[b1 b2] b3]. unfold lex3, lexlt.
  destruct (Z.compare_spec a1 b1); [|split; [auto | intros _; reflexivity]
                                     |split; [discriminate | lia]].
  destruct (Z.compare_spec a2 b2); [|split; [auto | intros _; reflexivity]
                                     |split; [discriminate | lia]].
  rewrite Z.compare_lt_iff. split; [auto | lia].
Qed.

Lemma lex3_Eq (a b : Z * Z * Z) : lex3 a b = Eq <-> a = b.
Proof.
  destruct a as [[a1 a2] a3], b as [[b1 b2] b3]. unfold lex3.
  destruct (Z.compare_spec a1 b1);
    [|split; [discriminate | intros E; injection E; lia] ..].
  destruct (Z.compare_spec a2 b2);
    [|split; [discriminate | intros E; injection E; lia] ..].
  rewrite Z.compare_eq_iff. split; [intros; subst; reflexivity|].
  intros E. injection E. auto.
Qed.

Lemma lexlt_le_trans (a b c : Z * Z * Z) : lexlt a b -> lexle b c -> lexlt a c.
Proof.
  intros Hab [Hbc | E]; [|subst; exact Hab].
  destruct a as [[a1 a2] a3], b as [[b1 b2] b3], c as [[c1 c2] c3].
  unfold lexlt in *. lia.
Qed.

Lemma lexle_lt_trans (a b c : Z * Z * Z) : lexle a b -> lexlt b c -> lexlt a c.
Proof.
  intros [Hab | E] Hbc; [|subst; exact Hbc].
  destruct a as [[a1 a2] a3], b as [[b1 b2] b3], c as [[c1 c2] c3].
  unfold lexlt in *. lia.
Qed.

Lemma ltb_key (x y : float) :
  (x <? y)%float = true
  <-> exists kx ky,
      SFkey (Prim2SF x) = Some kx /\ SFkey (Prim2SF y) = Some ky /\ lexlt kx ky.
Proof.
  rewrite ltb_spec. unfold SFltb. rewrite SFcompare_key.
  destruct (SFkey (Prim2SF x)) as [kx|], (SFkey (Prim2SF y)) as [ky|];
    try (split; [discriminate | intros (a & b & Ha & Hb & _); discriminate]).
  split.
  - intros H. exists kx, ky. repeat split. apply lex3_Lt.
    destruct (lex3 kx ky); [discriminate H | reflexivity | discriminate H].
  - intros (a & b & Ha & Hb & Hlt). injection Ha as Ha. injection Hb as Hb.
    subst a b. apply lex3_Lt in Hlt. rewrite Hlt. reflexivity.
Qed.

Lemma leb_key (x y : float) :
  (x <=? y)%float = true
  <-> exists kx ky,
      SFkey (Prim2SF x) = Some kx /\ SFkey (Prim2SF y) = Some ky /\ lexle kx ky.
Proof.
  rewrite leb_spec. unfold SFleb. rewrite SFcompare_key.
  destruct (SFkey (Prim2SF x)) as [kx|], (SFkey (Prim2SF y)) as [ky|];
    try (split; [discriminate | intros (a & b & Ha & Hb & _); discriminate]).
  split.
  - intros H. exists kx, ky. repeat split.
    destruct (lex3 kx ky) eqn:E; [right | left | discriminate H].
    + apply lex3_Eq. exact E.
    + apply lex3_Lt. exact E.
  - intros (a & b & Ha & Hb & Hle). injection Ha as Ha. injection Hb as Hb.
    subst a b. destruct Hle as [Hlt | E].
    + apply lex3_Lt in Hlt. rewrite Hlt. reflexivity.
    + apply lex3_Eq in E. rewrite E. reflexivity.
Qed.

Lemma ltb_leb_trans (x y z : float) :
  (x <? y)%float = true -> (y <=? z)%float = true -> (x <? z)%float = true.
Proof.
  rewrite !ltb_key, leb_key.
  intros (kx & ky & Hx & Hy & Hxy) (ky' & kz & Hy' & Hz & Hyz).
  rewrite Hy in Hy'. injection Hy' as E. subst ky'.
  exists kx, kz. repeat split; auto. exact (lexlt_le_trans kx ky kz Hxy Hyz).
Qed.

Lemma leb_ltb_trans (x y z : float) :
  (x <=? y)%float = true -> (y <? z)%float = true -> (x <? z)%float = true.
Proof.
  rewrite !ltb_key, leb_key.
  intros (kx & ky & Hx & Hy & Hxy) (ky' & kz & Hy' & Hz & Hyz).
  rewrite Hy in Hy'. injection Hy' as E. subst ky'.
  exists kx, kz. repeat split; auto. exact (lexle_lt_trans kx ky kz Hxy Hyz).
Qed.

(** ** The coordinate parser: bounds *)

Lemma leb_not_nan (x y : float) :
  (x <=? y)%float = true -> is_nan x = false /\ is_nan y = false.
Proof.
  rewrite leb_key. intros (kx & ky & Hx & Hy & _).
  unfold is_nan. rewrite !eqb_spec. unfold SFeqb. rewrite !SFcompare_key, Hx, Hy.
  rewrite (proj2 (lex3_Eq kx kx) eq_refl), (proj2 (lex3_Eq ky ky) eq_refl).
  split; reflexivity.
Qed.

(** A number between two finite numbers is finite. *)
Lemma between_finite (lo hi x : float) :
  is_finite lo = true -> is_finite hi = true ->
  (lo <=? x)%float = true -> (x <=? hi)%float = true ->
  is_finite x = true.
Proof.
  intros Hlo Hhi H1 H2. unfold is_finite in *.
  destruct (leb_not_nan _ _ H2) as [Hx _]. rewrite Hx. simpl.
  destruct (leb_not_nan _ _ H1) as [Hl _]. destruct (leb_not_nan _ _ H2) as [_ Hh].
  rewrite Hl in Hlo. rewrite Hh in Hhi. simpl in Hlo, Hhi.
  unfold is_infinity in *. rewrite eqb_spec, abs_spec in *.
  rewrite leb_spec in H1, H2.
  change (Prim2SF infinity) with (S754_infinity false) in *.
  destruct (Prim2SF x) as [sx|sx| |sx mx ex]; try reflexivity.
  destruct sx.
  - destruct (Prim2SF lo) as [sl|sl| |sl ml el]; try discriminate H1;
      destruct sl; try discriminate H1; discriminate Hlo.
  - destruct (Prim2SF hi) as [sh|sh| |sh mh eh]; try discriminate H2;
      destruct sh; try discriminate H2; discriminate Hhi.
Qed.

(** X4: a success of [getLatLong] whose two numbers are not NaN is a pair
    of finite numbers in the bounding box: southern <= y <= northern and
    eastern <= x <= western. *)
Theorem getLatLong_success_finite (s : string) (x y : float) :
  getLatLong s = (x, y, None) ->
  is_nan x = false -> is_nan y = false ->
  inside x y = true /\ is_finite x = true /\ is_finite y = true.
Proof.
  intros H Hx Hy.
  pose proof (getLatLong_success_inside s x y H Hx Hy) as Hin.
  split; [exact Hin|]. unfold inside in Hin.
  apply andb_prop in Hin. destruct Hin as [Hin Hw].
  apply andb_prop in Hin. destruct Hin as [Hin He].
  apply andb_prop in Hin. destruct Hin as [Hs Hn].
  split.
  - apply (between_finite EasternmostPoint WesternmostPoint x); auto.
  - apply (between_finite SouthernmostPoint NorthernmostPoint y); auto.
Qed.

Lemma getLatLong_success_finite_witness :
  inside 1.5 100.25 = true /\ is_finite 1.5 = true /\ is_finite 100.25 = true.
Proof.
  apply (getLatLong_success_finite " 1.5 , 100.25 " 1.5%float 100.25%float);
    vm_compute; reflexivity.
Defined.

(** ** The two revisions of the parser *)

Lemma outOfRange_widened (x y : float) :
  earlier.outOfRange x y = false -> outOfRange x y = false.
Proof.
  unfold earlier.outOfRange, outOfRange. intros H.
  apply orb_false_elim in H. destruct H as [H He].
  apply orb_false_elim in H. destruct H as [H Hw].
  apply orb_false_elim in H. destruct H as [Hs Hn].
  destruct (y <? SouthernmostPoint)%float eqn:E1.
  { rewrite (ltb_leb_trans y SouthernmostPoint _ E1) in Hs;
      [discriminate Hs | vm_compute; reflexivity]. }
  destruct (NorthernmostPoint <? y)%float eqn:E2.
  { rewrite (leb_ltb_trans _ NorthernmostPoint y) in Hn;
      [discriminate Hn | vm_compute; reflexivity | exact E2]. }
  destruct (WesternmostPoint <? x)%float eqn:E3.
  { rewrite (leb_ltb_trans _ WesternmostPoint x) in Hw;
      [discriminate Hw | vm_compute; reflexivity | exact E3]. }
  destruct (x <? EasternmostPoint)%float eqn:E4.
  { rewrite (ltb_leb_trans x EasternmostPoint _ E4) in He;
      [discriminate He | vm_compute; reflexivity]. }
  reflexivity.
Qed.

(** The two revisions differ by their range test only. *)
Lemma revisions_cases (s : string) :
  (exists e, e <> ErrLatLongOutOfRange
             /\ getLatLong s = (0%float, 0%float, Some e)
             /\ earlier.getLatLong s = (0%float, 0%float, Some e))
  \/ (exists x y,
         getLatLong s = (if outOfRange x y
                         then (0%float, 0%float, Some ErrLatLongOutOfRange)
                         else (x, y, None))
         /\ earlier.getLatLong s
            = (if earlier.outOfRange x y
               then (0%float, 0%float, Some ErrLatLongOutOfRange)
               else (x, y, None))).
Proof.
  unfold getLatLong, earlier.getLatLong.
  destruct ((s =? "")%string || (s =? ",")%string || (s =? "-999,-999")%string).
  { left. exists ErrLatLong. repeat split. discriminate. }
  destruct (negb (List.length (strings.Split s ",") =? 2)%nat).
  { left. exists ErrLatLong. repeat split. discriminate. }
  destruct (strconv.ParseFloat (strings.TrimSpace (nth 0 (strings.Split s ",") "")))
    as [x [ex|]] eqn:Ha.
  { left. exists ex. repeat split.
    destruct (ParseFloat_error _ _ _ Ha) as [kind Hk]. subst ex. discriminate. }
  destruct (strconv.ParseFloat (strings.TrimSpace (nth 1 (strings.Split s ",") "")))
    as [y [ey|]] eqn:Hb.
  { left. exists ey. repeat split.
    destruct (ParseFloat_error _ _ _ Hb) as [kind Hk]. subst ey. discriminate. }
  right. exists x, y. split; reflexivity.
Qed.

(** X5: the parser of the first revision accepts whatever the parser of
    the second revision (lines 290 to 317) accepts, with the same pair; the
    two fail alike with every error other than [ErrLatLongOutOfRange]; and
    the wider box is strictly wider. *)
Theorem revisions_agree (s : string) :
  (forall x y, earlier.getLatLong s = (x, y, None) -> getLatLong s = (x, y, None))
  /\ (forall e, e <> ErrLatLongOutOfRange ->
        (errOf (getLatLong s) = Some e <-> errOf (earlier.getLatLong s) = Some e))
  /\ (getLatLong "0.5,120" = (0.5%float, 120%float, None)
      /\ errOf (earlier.getLatLong "0.5,120") = Some ErrLatLongOutOfRange).
Proof.
  split; [|split].
  - intros x y H.
    destruct (revisions_cases s) as [(e & _ & _ & He) | (x' & y' & Hn & He)].
    + rewrite He in H. discriminate H.
    + rewrite He in H. rewrite Hn.
      destruct (earlier.outOfRange x' y') eqn:Hr; [discriminate H|].
      injection H as Hx Hy. subst x' y'.
      rewrite (outOfRange_widened x y Hr). reflexivity.
  - intros e Hne.
    destruct (revisions_cases s) as [(e' & _ & Hn & He) | (x' & y' & Hn & He)];
      rewrite Hn, He.
    + reflexivity.
    + destruct (outOfRange x' y'), (earlier.outOfRange x' y'); simpl;
        split; intros H; try discriminate H;
        injection H as H; subst e; contradiction.
  - split; vm_compute; reflexivity.
Qed.

(** ** The row loop, continued *)

Lemma context_eta (ctx : sm.Context) :
  sm.mkContext (sm.width ctx) (sm.height ctx) (sm.markers ctx ++ [])
    (sm.paths ctx ++ [])
  = ctx.
Proof.
  destruct ctx. simpl. rewrite !app_nil_r. reflexivity.
Qed.

Section Extraction.

Variable mode : string.

(** What a record adds to the paths in the mode of the run. *)
Let added (record : list string) : list sm.Path :=
  if (mode =? "line")%string then rowPaths record else [].

Lemma markRow_safe (record : list string) (ctx : sm.Context) :
  safe record = true ->
  markRow mode record ctx
  = Returns (sm.mkContext (sm.width ctx) (sm.height ctx)
               (sm.markers ctx ++ rowMarkers record)
               (sm.paths ctx ++ added record)).
Proof.
  unfold safe, markRow, rowMarkers, added, rowPaths, index, errOf.
  destruct (nth_error record 9) as [field9|]; [|discriminate].
  cbn [bind].
  destruct (getLatLong field9) as [[x1 y1] [e1|]]; cbn [snd].
  { intros _. destruct (nth_error record 12); destruct (mode =? "line")%string;
      rewrite context_eta; reflexivity. }
  intros H. apply Nat.leb_le in H.
  destruct (nth_error record 12) as [field12|] eqn:H12;
    [|apply nth_error_None in H12; lia].
  cbn [bind].
  destruct (getLatLong field12) as [[x2 y2] [e2|]].
  { destruct (mode =? "line")%string; rewrite context_eta; reflexivity. }
  destruct (mode =? "line")%string.
  - unfold sm.AddPath, sm.AddMarker. simpl. rewrite <- app_assoc. reflexivity.
  - unfold sm.AddMarker. simpl. rewrite <- app_assoc, app_nil_r. reflexivity.
Qed.

Lemma markRow_unsafe (record : list string) (ctx : sm.Context) :
  safe record = false ->
  exists i, markRow mode record ctx = Panics i (List.length record)
            /\ (i = 9%nat \/ i = 12%nat).
Proof.
  unfold safe, markRow, index, errOf.
  destruct (nth_error record 9) as [field9|]; [|intros _; exists 9%nat; auto].
  cbn [bind].
  destruct (getLatLong field9) as [[x1 y1] [e1|]]; cbn [snd]; [discriminate|].
  intros H. apply Nat.leb_gt in H.
  destruct (nth_error record 12) as [field12|] eqn:H12.
  - assert (12 < List.length record)%nat
      by (apply nth_error_Some; rewrite H12; discriminate).
    lia.
  - exists 12%nat. auto.
Qed.

Lemma markRows_safe (rows : list (list string)) :
  forallb safe rows = true ->
  forall ctx,
    markRows mode rows ctx
    = Returns (sm.mkContext (sm.width ctx) (sm.height ctx)
                 (sm.markers ctx ++ flat_map rowMarkers rows)
                 (sm.paths ctx ++ flat_map added rows)).
Proof.
  induction rows as [|record rest IH]; intros H ctx.
  - simpl. rewrite context_eta. reflexivity.
  - simpl in H. apply andb_prop in H. destruct H as [Hr Hrest].
    cbn [markRows]. rewrite (markRow_safe record ctx Hr). cbn [bind].
    rewrite (IH Hrest). simpl. rewrite <- !app_assoc. reflexivity.
Qed.

Lemma markRows_unsafe (rows : list (list string)) :
  forallb safe rows = false ->
  forall ctx,
    exists i n, markRows mode rows ctx = Panics i n /\ (i = 9%nat \/ i = 12%nat).
Proof.
  induction rows as [|record rest IH]; intros H ctx; [discriminate H|].
  simpl in H. cbn [markRows].
  destruct (safe record) eqn:Hr.
  - rewrite (markRow_safe record ctx Hr). cbn [bind]. apply IH. exact H.
  - destruct (markRow_unsafe record ctx Hr) as (i & E & Hi).
    rewrite E. exists i, (List.length record). auto.
Qed.

Lemma flat_map_added (rows : list (list string)) :
  flat_map added rows
  = if (mode =? "line")%string then flat_map rowPaths rows else [].
Proof.
  unfold added. destruct (mode =? "line")%string; [reflexivity|].
  induction rows; simpl; auto.
Qed.

End Extraction.

(** In every case [markLocations] has read the file or it returns an
    error with the context it started from and the count 0, whatever the
    limit and the mode are. *)
Lemma markLocations_cases (sys : System) (filename : string) :
  (exists file, reads sys filename file)
  \/ (exists e, forall limit mode,
         markLocations sys limit filename mode = Returns (ctx0, 0, Some e)).
Proof.
  unfold markLocations, reads.
  destruct (Abs sys filename) as [filePath|e] eqn:Habs; [|right; eauto].
  destruct (match Stat sys filePath with inl stat => IsDir stat | inr _ => false end)
    eqn:Hstat; [right; eauto|].
  destruct (Open sys filePath) as [file|e] eqn:Hopen; [|right; eauto].
  left. exists file, filePath. auto.
Qed.

(** The whole result of a run on a file whose examined rows are safe. *)
Lemma markLocations_safe (sys : System) (limit : Z) (filename mode : string)
  (file : File) :
  reads sys filename file ->
  Z.of_nat (List.length file) < 2 ^ 63 ->
  forallb safe (examined limit (-1) file) = true ->
  markLocations sys limit filename mode
  = Returns
      (sm.mkContext 600 400
         (flat_map rowMarkers (examined limit (-1) file))
         (if (mode =? "line")%string
          then flat_map rowPaths (examined limit (-1) file) else []),
       Z.of_nat (List.length file) - 1, None).
Proof.
  intros Hreads Hlen Hsafe.
  rewrite (markLocations_reads sys limit filename mode file Hreads).
  pose proof (readAll_examined limit mode file ctx0 (-1)) as Hctx.
  rewrite (markRows_safe mode _ Hsafe ctx0), flat_map_added in Hctx.
  destruct (readAll limit mode file (ctx0, -1)) as [[c rc]|i n] eqn:Hrun;
    [|discriminate Hctx].
  apply readAll_rowCount in Hrun; [|lia|lia].
  simpl in Hctx. injection Hctx as Hc. subst c rc. cbn [bind fst snd].
  replace (-1 + Z.of_nat (List.length file))
    with (Z.of_nat (List.length file) - 1) by lia.
  reflexivity.
Qed.

Lemma markLocations_unsafe (sys : System) (limit : Z) (filename mode : string)
  (file : File) :
  reads sys filename file ->
  forallb safe (examined limit (-1) file) = false ->
  exists i n, markLocations sys limit filename mode = Panics i n
              /\ (i = 9%nat \/ i = 12%nat).
Proof.
  intros Hreads Hsafe.
  rewrite (markLocations_reads sys limit filename mode file Hreads).
  pose proof (readAll_examined limit mode file ctx0 (-1)) as Hctx.
  destruct (markRows_unsafe mode _ Hsafe ctx0) as (i & n & E & Hi).
  rewrite E in Hctx.
  destruct (readAll limit mode file (ctx0, -1)) as [st|i' n'];
    [discriminate Hctx|].
  simpl in Hctx. injection Hctx as Ei En. subst i' n'.
  exists i, n. auto.
Qed.

(** X6: on a file that is read and whose examined rows are safe, the
    context returned is 600 by 400 and holds, in the order of the rows,
    the green origin marker and the red destination marker of every
    examined row whose two coordinate fields parse, and nothing else; in
    line mode it holds one black path for each such row, in any other mode
    no path. *)
Theorem markLocations_markers (sys : System) (limit : Z) (filename mode : string)
  (file : File) :
  reads sys filename file ->
  Z.of_nat (List.length file) < 2 ^ 63 ->
  forallb safe (examined limit (-1) file) = true ->
  exists ctx,
    markLocations sys limit filename mode
    = Returns (ctx, Z.of_nat (List.length file) - 1, None)
    /\ sm.width ctx = 600 /\ sm.height ctx = 400
    /\ sm.markers ctx = flat_map rowMarkers (examined limit (-1) file)
    /\ sm.paths ctx = (if (mode =? "line")%string
                       then flat_map rowPaths (examined limit (-1) file)
                       else []).
Proof.
  intros Hreads Hlen Hsafe.
  rewrite (markLocations_safe sys limit filename mode file Hreads Hlen Hsafe).
  eexists. split; [reflexivity|]. simpl. auto.
Qed.

Lemma markLocations_markers_witness :
  exists ctx,
    markLocations (oneFile "trips.csv" fiveTrips) 0 "trips.csv" "line"
    = Returns (ctx, Z.of_nat (List.length fiveTrips) - 1, None)
    /\ sm.width ctx = 600 /\ sm.height ctx = 400
    /\ sm.markers ctx = flat_map rowMarkers (examined 0 (-1) fiveTrips)
    /\ sm.paths ctx = (if ("line" =? "line")%string
                       then flat_map rowPaths (examined 0 (-1) fiveTrips)
                       else []).
Proof.
  apply (markLocations_markers (oneFile "trips.csv" fiveTrips) 0 "trips.csv" "line"
           fiveTrips).
  - exists "/trips.csv". repeat split; reflexivity.
  - vm_compute. reflexivity.
  - vm_compute. reflexivity.
Defined.

(** X7: on a file that is read, [markLocations] returns exactly when
    every examined row is safe: field 9 is there and, when it parses,
    field 12 is there too.  Otherwise the run panics on index 9 or on
    index 12. *)
Theorem markLocations_returns_iff (sys : System) (limit : Z)
  (filename mode : string) (file : File) :
  reads sys filename file ->
  Z.of_nat (List.length file) < 2 ^ 63 ->
  ((exists r, markLocations sys limit filename mode = Returns r)
   <-> forallb safe (examined limit (-1) file) = true)
  /\ (forallb safe (examined limit (-1) file) = false ->
      exists i n, markLocations sys limit filename mode = Panics i n
                  /\ (i = 9%nat \/ i = 12%nat)).
Proof.
  intros Hreads Hlen. split; [split|].
  - intros [r Hr]. destruct (forallb safe (examined limit (-1) file)) eqn:Hs;
      [reflexivity|].
    destruct (markLocations_unsafe sys limit filename mode file Hreads Hs)
      as (i & n & E & _).
    rewrite E in Hr. discriminate Hr.
  - intros Hs.
    rewrite (markLocations_safe sys limit filename mode file Hreads Hlen Hs).
    eauto.
  - exact (markLocations_unsafe sys limit filename mode file Hreads).
Qed.

Lemma markLocations_returns_iff_witness :
  ((exists r,
       markLocations (oneFile "trips.csv" [header; tenFields; ["7"; "x"]]) 2
         "trips.csv" "plot" = Returns r)
   <-> forallb safe (examined 2 (-1) [header; tenFields; ["7"; "x"]]) = true)
  /\ (forallb safe (examined 2 (-1) [header; tenFields; ["7"; "x"]]) = false ->
      exists i n,
        markLocations (oneFile "trips.csv" [header; tenFields; ["7"; "x"]]) 2
          "trips.csv" "plot" = Panics i n
        /\ (i = 9%nat \/ i = 12%nat)).
Proof.
  apply (markLocations_returns_iff
           (oneFile "trips.csv" [header; tenFields; ["7"; "x"]]) 2 "trips.csv"
           "plot" [header; tenFields; ["7"; "x"]]).
  - exists "/trips.csv". repeat split; reflexivity.
  - vm_compute. reflexivity.
Defined.

(** X8: [markLocations] returns a non-nil error exactly when the file
    cannot be read (no absolute path, a directory, or a failure to open);
    the context is then the empty 600 by 400 context and the row count is
    0, not -1; a directory is refused with [ErrBadInput] without being
    opened. *)
Theorem markLocations_error (sys : System) (limit : Z) (filename mode : string) :
  ((exists ctx n e, markLocations sys limit filename mode = Returns (ctx, n, Some e))
   <-> ~ (exists file, reads sys filename file))
  /\ (forall ctx n e,
         markLocations sys limit filename mode = Returns (ctx, n, Some e) ->
         ctx = ctx0 /\ n = 0)
  /\ (forall filePath info,
         Abs sys filename = inl filePath ->
         Stat sys filePath = inl info -> IsDir info = true ->
         markLocations sys limit filename mode = Returns (ctx0, 0, Some ErrBadInput)).
Proof.
  assert (Hread : forall file ctx n e,
             reads sys filename file ->
             markLocations sys limit filename mode = Returns (ctx, n, Some e) ->
             False).
  { intros file ctx n e Hreads H.
    rewrite (markLocations_reads sys limit filename mode file Hreads) in H.
    destruct (readAll limit mode file (ctx0, -1)); discriminate H. }
  split; [split|split].
  - intros (ctx & n & e & H) [file Hreads]. exact (Hread file ctx n e Hreads H).
  - intros Hno. destruct (markLocations_cases sys filename) as [Hyes | [e He]];
      [contradiction|].
    exists ctx0, 0, e. apply He.
  - intros ctx n e H.
    destruct (markLocations_cases sys filename) as [[file Hreads] | [e' He]].
    + destruct (Hread file ctx n e Hreads H).
    + rewrite He in H. injection H as Hc Hn _. auto.
  - intros filePath info Habs Hstat Hdir. unfold markLocations.
    rewrite Habs, Hstat, Hdir. reflexivity.
Qed.

(** ** Invariants of the loop *)

(** The rule for a property of the context that marker extraction keeps. *)
Lemma readAll_invariant (P : sm.Context -> Prop) (limit : Z) (mode : string) :
  (forall record ctx ctx',
      P ctx -> markRow mode record ctx = Returns ctx' -> P ctx') ->
  forall (file : File) (ctx ctx' : sm.Context) (rowCount rowCount' : Z),
    P ctx ->
    readAll limit mode file (ctx, rowCount) = Returns (ctx', rowCount') ->
    P ctx'.
Proof.
  intros Hrow. induction file as [|record rest IH];
    intros ctx ctx' rowCount rowCount' HP H.
  - simpl in H. injection H as Hc _. subst ctx'. exact HP.
  - cbn [readAll] in H.
    destruct (step limit mode record (ctx, rowCount)) as [[c1 rc1]|i n] eqn:Hstep;
      [|discriminate H].
    cbn [bind] in H. apply (IH c1 ctx' rc1 rowCount'); [|exact H].
    unfold step in Hstep.
    destruct (wrap64 (rowCount + 1) =? 0).
    { injection Hstep as Hc _. subst c1. exact HP. }
    destruct ((limit =? 0) || (wrap64 (rowCount + 1) <? limit)).
    + destruct (markRow mode record ctx) as [c|i n] eqn:Hr; [|discriminate Hstep].
      cbn [bind] in Hstep. injection Hstep as Hc _. subst c1.
      exact (Hrow record ctx c HP Hr).
    + injection Hstep as Hc _. subst c1. exact HP.
Qed.

(** What marker extraction returns on one record, whatever the record. *)
Lemma markRow_returned (mode : string) (record : list string)
  (ctx ctx' : sm.Context) :
  markRow mode record ctx = Returns ctx' ->
  ctx' = sm.mkContext (sm.width ctx) (sm.height ctx)
           (sm.markers ctx ++ rowMarkers record)
           (sm.paths ctx
            ++ (if (mode =? "line")%string then rowPaths record else [])).
Proof.
  intros H. destruct (safe record) eqn:Hs.
  - rewrite (markRow_safe mode record ctx Hs) in H. injection H as H.
    symmetry. exact H.
  - destruct (markRow_unsafe mode record ctx Hs) as (i & E & _).
    rewrite E in H. discriminate H.
Qed.

Lemma rowMarkers_rowPaths (record : list string) :
  map sm.Position (rowMarkers record) = flat_map sm.Positions (rowPaths record)
  /\ List.length (rowMarkers record) = (2 * List.length (rowPaths record))%nat
  /\ map sm.MarkerColor (rowMarkers record)
     = flat_map (fun _ => [green; red]) (rowPaths record).
Proof.
  unfold rowMarkers, rowPaths.
  destruct (nth_error record 9) as [f9|]; [|auto].
  destruct (nth_error record 12) as [f12|]; [|auto].
  destruct (getLatLong f9) as [[x1 y1] [e1|]]; [auto|].
  destruct (getLatLong f12) as [[x2 y2] [e2|]]; auto.
Qed.

(** X9: the loop only appends.  From whatever context and counter a run
    of the loop starts, the context it returns has the same size, and its
    markers and paths are those it started with followed by new ones;
    nothing is removed or changed. *)
Theorem readAll_appends (limit : Z) (mode : string) (file : File)
  (ctx ctx' : sm.Context) (rowCount rowCount' : Z) :
  readAll limit mode file (ctx, rowCount) = Returns (ctx', rowCount') ->
  sm.width ctx' = sm.width ctx /\ sm.height ctx' = sm.height ctx
  /\ (exists ms, sm.markers ctx' = (sm.markers ctx ++ ms)%list)
  /\ (exists ps, sm.paths ctx' = (sm.paths ctx ++ ps)%list).
Proof.
  apply (readAll_invariant
           (fun c => sm.width c = sm.width ctx /\ sm.height c = sm.height ctx
                     /\ (exists ms, sm.markers c = (sm.markers ctx ++ ms)%list)
                     /\ (exists ps, sm.paths c = (sm.paths ctx ++ ps)%list))).
  - intros record c c' (Hw & Hh & [ms Hm] & [ps Hp]) Hr.
    apply markRow_returned in Hr. subst c'. simpl.
    rewrite Hm, Hp, <- !app_assoc.
    split; [exact Hw|]. split; [exact Hh|].
    split; eexists; reflexivity.
  - repeat split; auto; exists []; now rewrite app_nil_r.
Qed.

Lemma readAll_appends_witness :
  sm.width (oneTrip false) = sm.width ctx0
  /\ sm.height (oneTrip false) = sm.height ctx0
  /\ (exists ms, sm.markers (oneTrip false) = (sm.markers ctx0 ++ ms)%list)
  /\ (exists ps, sm.paths (oneTrip false) = (sm.paths ctx0 ++ ps)%list).
Proof.
  apply (readAll_appends 0 "plot" [header; trip "0.5,100" "1.5,120"]
           ctx0 (oneTrip false) (-1) 1).
  vm_compute. reflexivity.
Defined.

(** X10: in line mode the paths and the markers of the context returned
    go together: read in order, the positions of the paths are the
    positions of the markers, there are two markers for every path, and the
    markers are green and red in turn. *)
Theorem line_mode_pairs (sys : System) (limit : Z) (filename : string)
  (ctx : sm.Context) (n : Z) (e : err_t) :
  markLocations sys limit filename "line" = Returns (ctx, n, e) ->
  map sm.Position (sm.markers ctx) = flat_map sm.Positions (sm.paths ctx)
  /\ List.length (sm.markers ctx) = (2 * List.length (sm.paths ctx))%nat
  /\ map sm.MarkerColor (sm.markers ctx)
     = flat_map (fun _ => [green; red]) (sm.paths ctx).
Proof.
  intros H.
  destruct (markLocations_cases sys filename) as [[file Hreads] | [e' He]].
  - rewrite (markLocations_reads sys limit filename "line" file Hreads) in H.
    destruct (readAll limit "line" file (ctx0, -1)) as [[c rc]|i k] eqn:Hrun;
      [|discriminate H].
    simpl in H. injection H as Hc _ _. subst c.
    revert Hrun.
    apply (readAll_invariant
             (fun c =>
                map sm.Position (sm.markers c) = flat_map sm.Positions (sm.paths c)
                /\ List.length (sm.markers c) = (2 * List.length (sm.paths c))%nat
                /\ map sm.MarkerColor (sm.markers c)
                   = flat_map (fun _ => [green; red]) (sm.paths c))).
    + intros record c c' (Hp & Hl & Hcol) Hr.
      apply markRow_returned in Hr. subst c'. cbn [String.eqb Ascii.eqb Bool.eqb].
      destruct (rowMarkers_rowPaths record) as (Rp & Rl & Rc).
      simpl sm.markers. simpl sm.paths.
      rewrite !map_app, !flat_map_app, !length_app, Hp, Hl, Hcol, Rp, Rl, Rc.
      repeat split; try reflexivity. lia.
    + repeat split; reflexivity.
  - rewrite He in H. injection H as Hc _ _. subst ctx. repeat split; reflexivity.
Qed.

Lemma line_mode_pairs_witness :
  map sm.Position (sm.markers (oneTrip true))
  = flat_map sm.Positions (sm.paths (oneTrip true))
  /\ List.length (sm.markers (oneTrip true))
     = (2 * List.length (sm.paths (oneTrip true)))%nat
  /\ map sm.MarkerColor (sm.markers (oneTrip true))
     = flat_map (fun _ => [green; red]) (sm.paths (oneTrip true)).
Proof.
  apply (line_mode_pairs
           (oneFile "trips.csv"
              [header; trip "0.5,100" "1.5,120"; trip "-999,-999" "1.5,120"])
           0 "trips.csv" (oneTrip true) 2 None).
  vm_compute. reflexivity.
Defined.

(** ** The mode *)

Lemma markRow_mode (mode mode' : string) (record : list string)
  (ctx ctx' : sm.Context) :
  sm.markers ctx = sm.markers ctx' ->
  omap sm.markers (markRow mode record ctx)
  = omap sm.markers (markRow mode' record ctx').
Proof.
  intros H. unfold markRow, index.
  destruct (nth_error record 9) as [f9|]; [|reflexivity]. cbn [bind].
  destruct (getLatLong f9) as [[x1 y1] [e1|]]; [simpl; now rewrite H|].
  destruct (nth_error record 12) as [f12|]; [|reflexivity]. cbn [bind].
  destruct (getLatLong f12) as [[x2 y2] [e2|]]; [simpl; now rewrite H|].
  destruct (mode =? "line")%string, (mode' =? "line")%string; simpl;
    rewrite H; reflexivity.
Qed.

Lemma readAll_mode (limit : Z) (mode mode' : string) (file : File) :
  forall (ctx ctx' : sm.Context) (rowCount : Z),
    sm.markers ctx = sm.markers ctx' ->
    omap (fun st => (sm.markers (fst st), snd st))
      (readAll limit mode file (ctx, rowCount))
    = omap (fun st => (sm.markers (fst st), snd st))
        (readAll limit mode' file (ctx', rowCount)).
Proof.
  induction file as [|record rest IH]; intros ctx ctx' rowCount H.
  - simpl. now rewrite H.
  - cbn [readAll]. unfold step.
    destruct (wrap64 (rowCount + 1) =? 0); [cbn [bind]; now apply IH|].
    destruct ((limit =? 0) || (wrap64 (rowCount + 1) <? limit));
      [|cbn [bind]; now apply IH].
    pose proof (markRow_mode mode mode' record ctx ctx' H) as Hr.
    destruct (markRow mode record ctx) as [c|i n],
      (markRow mode' record ctx') as [c'|i' n']; simpl in Hr;
      try discriminate Hr.
    + injection Hr as Hr. cbn [bind]. now apply IH.
    + injection Hr as Hi Hn. subst. reflexivity.
Qed.

(** X11: the mode acts on the paths only.  Two runs that differ by their
    mode alone return the same markers, the same row count and the same
    error, or panic alike; and with any mode other than "line" the context
    returned has no path. *)
Theorem mode_acts_on_paths_only (sys : System) (limit : Z)
  (filename mode mode' : string) :
  omap (fun r => (sm.markers (fst (fst r)), snd (fst r), snd r))
    (markLocations sys limit filename mode)
  = omap (fun r => (sm.markers (fst (fst r)), snd (fst r), snd r))
      (markLocations sys limit filename mode')
  /\ (mode <> "line" ->
      forall ctx n e,
        markLocations sys limit filename mode = Returns (ctx, n, e) ->
        sm.paths ctx = []).
Proof.
  destruct (markLocations_cases sys filename) as [[file Hreads] | [e' He]].
  - rewrite !(markLocations_reads sys limit filename _ file Hreads). split.
    + pose proof (readAll_mode limit mode mode' file ctx0 ctx0 (-1) eq_refl) as H.
      destruct (readAll limit mode file (ctx0, -1)) as [[c rc]|i n],
        (readAll limit mode' file (ctx0, -1)) as [[c' rc']|i' n']; simpl in H;
        try discriminate H.
      * injection H as Hm Hrc. simpl. now rewrite Hm, Hrc.
      * injection H as Hi Hn. subst. reflexivity.
    + intros Hmode ctx n e H.
      destruct (readAll limit mode file (ctx0, -1)) as [[c rc]|i k] eqn:Hrun;
        [|discriminate H].
      simpl in H. injection H as Hc _ _. subst c. revert Hrun.
      apply (readAll_invariant (fun c => sm.paths c = [])); [|reflexivity].
      intros record c c' Hp Hr. apply markRow_returned in Hr. subst c'.
      apply String.eqb_neq in Hmode. rewrite Hmode. simpl.
      rewrite Hp. reflexivity.
  - rewrite !He. split; [reflexivity|].
    intros _ ctx n e H. injection H as Hc _ _. subst ctx. reflexivity.
Qed.

(** ** The limit, continued *)

Lemma tl_firstn {A : Type} (k : nat) (l : list A) :
  tl (firstn (S k) l) = firstn k (tl l).
Proof.
  destruct l; simpl; [symmetry; apply firstn_nil | reflexivity].
Qed.

(** The rows examined under a limit are the first of those examined under
    a larger limit, or under no limit. *)
Lemma examined_prefix (file : File) (n m : Z) :
  Z.of_nat (List.length file) < 2 ^ 63 ->
  n <> 0 -> m = 0 \/ n <= m ->
  exists rest,
    examined m (-1) file = (examined n (-1) file ++ rest)%list.
Proof.
  intros Hlen Hn Hm. rewrite !examined_file by exact Hlen.
  destruct (Z.eqb_spec n 0) as [E|_]; [contradiction|].
  destruct (Z.eqb_spec m 0) as [E|Hm0].
  - exists (skipn (Z.to_nat (n - 1)) (tl file)). now rewrite firstn_skipn.
  - destruct Hm as [E|Hle]; [contradiction|].
    exists (skipn (Z.to_nat (n - 1)) (firstn (Z.to_nat (m - 1)) (tl file))).
    rewrite <- (firstn_skipn (Z.to_nat (n - 1))
                  (firstn (Z.to_nat (m - 1)) (tl file))) at 1.
    rewrite firstn_firstn. f_equal. f_equal. lia.
Qed.

(** X12: with limit 1, or with a negative limit, no row is examined: on
    every file that is read [markLocations] returns the empty context and
    the number of rows less one, and it cannot panic, whatever the rows
    are. *)
Theorem limit_examines_nothing (sys : System) (limit : Z)
  (filename mode : string) (file : File) :
  limit < 0 \/ limit = 1 ->
  reads sys filename file ->
  Z.of_nat (List.length file) < 2 ^ 63 ->
  examined limit (-1) file = []
  /\ markLocations sys limit filename mode
     = Returns (ctx0, Z.of_nat (List.length file) - 1, None).
Proof.
  intros Hlimit Hreads Hlen.
  assert (Hex : examined limit (-1) file = []).
  { rewrite (examined_file limit file Hlen).
    destruct (Z.eqb_spec limit 0) as [E|_]; [lia|].
    replace (Z.to_nat (limit - 1)) with O by lia. reflexivity. }
  split; [exact Hex|].
  rewrite (markLocations_safe sys limit filename mode file Hreads Hlen)
    by (rewrite Hex; reflexivity).
  rewrite Hex. simpl. destruct (mode =? "line")%string; reflexivity.
Qed.

Lemma limit_examines_nothing_witness :
  examined (-3) (-1) [header; tenFields; ["7"; "x"]] = []
  /\ markLocations (oneFile "trips.csv" [header; tenFields; ["7"; "x"]]) (-3)
       "trips.csv" "line"
     = Returns (ctx0, Z.of_nat (List.length [header; tenFields; ["7"; "x"]]) - 1,
                None).
Proof.
  apply (limit_examines_nothing
           (oneFile "trips.csv" [header; tenFields; ["7"; "x"]]) (-3) "trips.csv"
           "line" [header; tenFields; ["7"; "x"]]).
  - left. lia.
  - exists "/trips.csv". repeat split; reflexivity.
  - vm_compute. reflexivity.
Defined.

(** X13: a run with a limit N > 0 builds the context, or panics, as a run
    without limit does on the first N rows of the file, header included. *)
Theorem limit_is_truncation (sys sys' : System) (filename filename' mode : string)
  (file : File) (limit : Z) :
  0 < limit ->
  reads sys filename file ->
  reads sys' filename' (firstn (Z.to_nat limit) file) ->
  Z.of_nat (List.length file) < 2 ^ 63 ->
  omap (fun r => fst (fst r)) (markLocations sys limit filename mode)
  = omap (fun r => fst (fst r)) (markLocations sys' 0 filename' mode).
Proof.
  intros Hpos Hreads Hreads' Hlen.
  rewrite (markLocations_reads sys limit filename mode _ Hreads).
  rewrite (markLocations_reads sys' 0 filename' mode _ Hreads').
  rewrite !omap_context, !readAll_examined.
  rewrite (examined_file limit file Hlen).
  rewrite (examined_file 0 (firstn (Z.to_nat limit) file)).
  - destruct (Z.eqb_spec limit 0) as [E|_]; [lia|]. simpl.
    replace (Z.to_nat limit) with (S (Z.to_nat (limit - 1))) by lia.
    rewrite tl_firstn. reflexivity.
  - assert (List.length (firstn (Z.to_nat limit) file) <= List.length file)%nat
      by (rewrite length_firstn; lia).
    lia.
Qed.

Lemma limit_is_truncation_witness :
  omap (fun r => fst (fst r))
    (markLocations (oneFile "trips.csv" fiveTrips) 3 "trips.csv" "line")
  = omap (fun r => fst (fst r))
      (markLocations (oneFile "first.csv" (firstn (Z.to_nat 3) fiveTrips)) 0
         "first.csv" "line").
Proof.
  apply (limit_is_truncation (oneFile "trips.csv" fiveTrips)
           (oneFile "first.csv" (firstn (Z.to_nat 3) fiveTrips))
           "trips.csv" "first.csv" "line" fiveTrips 3).
  - lia.
  - exists "/trips.csv". repeat split; reflexivity.
  - exists "/first.csv". repeat split; reflexivity.
  - vm_compute. reflexivity.
Defined.

(** X14: raising the limit, or lifting it, only appends.  If the run with
    the larger limit (or with limit 0) returns, the run with the smaller
    limit returns too, with the same row count, and its markers and paths
    are the first markers and paths of the other run. *)
Theorem larger_limit_appends (sys : System) (filename mode : string)
  (file : File) (n m : Z) (ctx : sm.Context) (count : Z) (e : err_t) :
  reads sys filename file ->
  Z.of_nat (List.length file) < 2 ^ 63 ->
  n <> 0 -> m = 0 \/ n <= m ->
  markLocations sys m filename mode = Returns (ctx, count, e) ->
  exists ctx' ms ps,
    markLocations sys n filename mode = Returns (ctx', count, e)
    /\ sm.markers ctx = (sm.markers ctx' ++ ms)%list
    /\ sm.paths ctx = (sm.paths ctx' ++ ps)%list.
Proof.
  intros Hreads Hlen Hn Hm H.
  destruct (examined_prefix file n m Hlen Hn Hm) as [rest Hrest].
  assert (Hsafe : forallb safe (examined m (-1) file) = true).
  { destruct (forallb safe (examined m (-1) file)) eqn:Hs; [reflexivity|].
    destruct (markLocations_unsafe sys m filename mode file Hreads Hs)
      as (i & k & E & _).
    rewrite E in H. discriminate H. }
  rewrite (markLocations_safe sys m filename mode file Hreads Hlen Hsafe) in H.
  injection H as Hc Hcount He. subst ctx count e.
  rewrite Hrest, forallb_app in Hsafe. apply andb_prop in Hsafe.
  destruct Hsafe as [Hsafe _].
  rewrite (markLocations_safe sys n filename mode file Hreads Hlen Hsafe).
  rewrite Hrest, !flat_map_app.
  eexists. exists (flat_map rowMarkers rest).
  exists (if (mode =? "line")%string then flat_map rowPaths rest else []).
  split; [reflexivity|]. simpl. split; [reflexivity|].
  destruct (mode =? "line")%string; reflexivity.
Qed.

Lemma larger_limit_appends_witness :
  exists ctx' ms ps,
    markLocations (oneFile "trips.csv" [header; trip "0.5,100" "1.5,120"]) 1
      "trips.csv" "line"
    = Returns (ctx', 1, None)
    /\ sm.markers (oneTrip true) = (sm.markers ctx' ++ ms)%list
    /\ sm.paths (oneTrip true) = (sm.paths ctx' ++ ps)%list.
Proof.
  apply (larger_limit_appends (oneFile "trips.csv" [header; trip "0.5,100" "1.5,120"])
           "trips.csv" "line" [header; trip "0.5,100" "1.5,120"] 1 0
           (oneTrip true) 1 None).
  - exists "/trips.csv". repeat split; reflexivity.
  - vm_compute. reflexivity.
  - discriminate.
  - left. reflexivity.
  - vm_compute. reflexivity.
Defined.

(** X15: the first row is skipped whatever it holds: two files that
    differ by their first row alone get the same result. *)
Theorem first_row_is_skipped (sys sys' : System) (limit : Z)
  (filename filename' mode : string) (first first' : list string) (data : File) :
  reads sys filename (first :: data) ->
  reads sys' filename' (first' :: data) ->
  markLocations sys limit filename mode = markLocations sys' limit filename' mode.
Proof.
  intros Hreads Hreads'.
  rewrite (markLocations_reads sys limit filename mode _ Hreads).
  rewrite (markLocations_reads sys' limit filename' mode _ Hreads').
  cbn [readAll]. unfold step.
  replace (wrap64 (-1 + 1)) with 0 by reflexivity. reflexivity.
Qed.

Lemma first_row_is_skipped_witness :
  markLocations (oneFile "a.csv" [header; trip "0.5,100" "1.5,120"]) 0 "a.csv" "line"
  = markLocations
      (oneFile "b.csv" [trip "2.5,101" "3,130"; trip "0.5,100" "1.5,120"]) 0
      "b.csv" "line".
Proof.
  apply (first_row_is_skipped (oneFile "a.csv" [header; trip "0.5,100" "1.5,120"])
           (oneFile "b.csv" [trip "2.5,101" "3,130"; trip "0.5,100" "1.5,120"])
           0 "a.csv" "b.csv" "line" header (trip "2.5,101" "3,130")
           [trip "0.5,100" "1.5,120"]).
  - exists "/a.csv". repeat split; reflexivity.
  - exists "/b.csv". repeat split; reflexivity.
Defined.

(** ** [main] and [terminate] *)

(** A panic of marker extraction is on index 9 or on index 12. *)
Lemma markRow_panics (mode : string) (record : list string) (ctx : sm.Context)
  (i n : nat) :
  markRow mode record ctx = Panics i n -> i = 9%nat \/ i = 12%nat.
Proof.
  intros H. destruct (safe record) eqn:Hs.
  - rewrite (markRow_safe mode record ctx Hs) in H. discriminate H.
  - destruct (markRow_unsafe mode record ctx Hs) as (j & E & Hj).
    rewrite E in H. injection H as Hi _. subst j. exact Hj.
Qed.

Lemma readAll_panics (limit : Z) (mode : string) (file : File) :
  forall (st : sm.Context * Z) (i n : nat),
    readAll limit mode file st = Panics i n -> i = 9%nat \/ i = 12%nat.
Proof.
  induction file as [|record rest IH]; intros [ctx rowCount] i n H;
    [discriminate H|].
  cbn [readAll] in H.
  destruct (step limit mode record (ctx, rowCount)) as [st1|j k] eqn:Hstep.
  - exact (IH st1 i n H).
  - cbn [bind] in H. injection H as Hi Hn. subst j k.
    unfold step in Hstep.
    destruct (wrap64 (rowCount + 1) =? 0); [discriminate Hstep|].
    destruct ((limit =? 0) || (wrap64 (rowCount + 1) <? limit));
      [|discriminate Hstep].
    destruct (markRow mode record ctx) as [c|j k] eqn:Hr; [discriminate Hstep|].
    cbn [bind] in Hstep. injection Hstep as Hi Hn. subst j k.
    exact (markRow_panics mode record ctx i n Hr).
Qed.

Lemma markLocations_panics (sys : System) (limit : Z) (filename mode : string)
  (i n : nat) :
  markLocations sys limit filename mode = Panics i n -> i = 9%nat \/ i = 12%nat.
Proof.
  intros H.
  destruct (markLocations_cases sys filename) as [[file Hreads] | [e He]].
  - rewrite (markLocations_reads sys limit filename mode file Hreads) in H.
    destruct (readAll limit mode file (ctx0, -1)) as [st|j k] eqn:Hrun;
      [discriminate H|].
    cbn [bind] in H. injection H as Hi Hn. subst j k.
    exact (readAll_panics limit mode file _ i n Hrun).
  - rewrite He in H. discriminate H.
Qed.

(** X16: when the input file cannot be read, [main] prints the input
    line, the usage and the error and exits with status 0; nothing is
    rendered, no directory is made and no file is written. *)
Theorem main_unreadable (sys : System) (w : World) (limit : Z)
  (filename mode : string) :
  ~ (exists file, reads sys filename file) ->
  exists e,
    markLocations sys limit filename mode = Returns (ctx0, 0, Some e)
    /\ main sys w limit filename mode
       = ([Println [Str (fmt.inputLine filename mode limit)];
           Println [Str usage];
           Println [Str "Error: "; ErrorOf e]],
          Exited 0).
Proof.
  intros Hno.
  destruct (markLocations_cases sys filename) as [Hyes | [e He]];
    [contradiction|].
  exists e. split; [apply He|]. unfold main. rewrite He. reflexivity.
Qed.

Lemma main_unreadable_witness :
  exists e,
    markLocations (oneFile "trips.csv" fiveTrips) 0 "nothing.csv" "plot"
    = Returns (ctx0, 0, Some e)
    /\ main (oneFile "trips.csv" fiveTrips)
         (fairWorld 0) 0 "nothing.csv" "plot"
       = ([Println [Str (fmt.inputLine "nothing.csv" "plot" 0)];
           Println [Str usage];
           Println [Str "Error: "; ErrorOf e]],
          Exited 0).
Proof.
  apply (main_unreadable (oneFile "trips.csv" fiveTrips)
           (fairWorld 0) 0 "nothing.csv" "plot").
  intros (file & filePath & Habs & _ & Hopen).
  injection Habs as Habs. subst filePath. discriminate Hopen.
Defined.

(** The ways a run ends once the flags are parsed. *)
Lemma main_endings_parsed (sys : System) (w : World) (limit : Z)
  (filename mode : string) :
  match snd (main sys w limit filename mode) with
  | Exited code =>
      code = 0
      /\ exists before e,
          fst (main sys w limit filename mode)
          = (before ++ [Println [Str usage]; Println [Str "Error: "; ErrorOf e]])%list
  | Panicked i n =>
      (i = 9%nat \/ i = 12%nat)
      /\ fst (main sys w limit filename mode)
         = [Println [Str (fmt.inputLine filename mode limit)]]
  | Returned =>
      exists before outFilePath img,
        fst (main sys w limit filename mode)
        = (before ++ [Saving outFilePath img;
                      Println [Str (nl ++ "Generated: "); Str outFilePath]])%list
        /\ SavePNG w outFilePath img = None
  end.
Proof.
  unfold main.
  destruct (markLocations sys limit filename mode) as [[[ctx rowCount] [e|]]|i n]
    eqn:Hrun.
  - simpl. split; [reflexivity|].
    exists [Println [Str (fmt.inputLine filename mode limit)]], e. reflexivity.
  - destruct (Render w ctx) as [img|e].
    + set (outFilePath :=
             path.Join
               [ImagesDir;
                fmt.imageName
                  (strings.TrimSuffix (filepath.Base filename)
                     (filepath.Ext (filepath.Base filename)))
                  mode rowCount (Unix w)]).
      cbv zeta. fold outFilePath.
      destruct (SavePNG w outFilePath img) as [e|] eqn:Hsave.
      * simpl. split; [reflexivity|].
        exists ((Println [Str (fmt.inputLine filename mode limit)]
                 :: Rendering ctx
                 :: (if IsNotExist w ImagesDir then [Mkdir ImagesDir ModePerm] else []))
                ++ [Saving outFilePath img])%list, e.
        destruct (IsNotExist w ImagesDir); reflexivity.
      * simpl.
        exists (Println [Str (fmt.inputLine filename mode limit)]
                :: Rendering ctx
                :: (if IsNotExist w ImagesDir then [Mkdir ImagesDir ModePerm] else [])),
          outFilePath, img.
        split; [|exact Hsave].
        destruct (IsNotExist w ImagesDir); reflexivity.
    + simpl. split; [reflexivity|].
      exists [Println [Str (fmt.inputLine filename mode limit)]; Rendering ctx], e.
      reflexivity.
  - simpl. split; [|reflexivity].
    exact (markLocations_panics sys limit filename mode i n Hrun).
Qed.

(** X17: the ways a run of [main] ends, [flag.Parse] included.  Either
    [flag.Parse] refuses the command line and exits with its own status
    before anything is printed on standard output, rendered or written; or
    [terminate] exits, always with status 0, and the last things printed
    before it are the usage and the error; or the run panics on index 9 or
    12 after the input line alone; or [main] returns, and the last two
    events are the writing of the image and the line that names the file
    written. *)
Theorem main_endings (sys : System) (w : World) (cmd : commandLine) :
  match snd (run sys w cmd) with
  | Exited code =>
      (cmd = Refused code /\ fst (run sys w cmd) = [])
      \/ (code = 0
          /\ exists limit filename mode before e,
              cmd = Parsed limit filename mode
              /\ fst (run sys w cmd)
                 = (before ++ [Println [Str usage];
                               Println [Str "Error: "; ErrorOf e]])%list)
  | Panicked i n =>
      (i = 9%nat \/ i = 12%nat)
      /\ exists limit filename mode,
          cmd = Parsed limit filename mode
          /\ fst (run sys w cmd) = [Println [Str (fmt.inputLine filename mode limit)]]
  | Returned =>
      exists limit filename mode before outFilePath img,
        cmd = Parsed limit filename mode
        /\ fst (run sys w cmd)
           = (before ++ [Saving outFilePath img;
                         Println [Str (nl ++ "Generated: "); Str outFilePath]])%list
        /\ SavePNG w outFilePath img = None
  end.
Proof.
  destruct cmd as [limit filename mode | status]; cbn [run].
  - pose proof (main_endings_parsed sys w limit filename mode) as H.
    destruct (main sys w limit filename mode) as [events [ | code | i n]];
      cbn [fst snd] in *.
    + destruct H as (before & outFilePath & img & Hev & Hsave).
      exists limit, filename, mode, before, outFilePath, img. auto.
    + destruct H as (Hcode & before & e & Hev). right.
      split; [exact Hcode|]. exists limit, filename, mode, before, e. auto.
    + destruct H as (Hi & Hev). split; [exact Hi|].
      exists limit, filename, mode. auto.
  - left. split; reflexivity.
Qed.

(** ** The name of the image *)

Lemma append_assoc (a b c : string) : ((a ++ b) ++ c = a ++ (b ++ c))%string.
Proof.
  induction a as [|x a IH]; simpl; [reflexivity | now rewrite IH].
Qed.

Lemma append_empty (a : string) : (a ++ "")%string = a.
Proof.
  induction a as [|x a IH]; simpl; [reflexivity | now rewrite IH].
Qed.

Lemma length_append (a b : string) :
  String.length (a ++ b) = (String.length a + String.length b)%nat.
Proof.
  induction a as [|x a IH]; simpl; [reflexivity | now rewrite IH].
Qed.

Lemma substring_all (a : string) : substring 0 (String.length a) a = a.
Proof.
  induction a as [|x a IH]; simpl; [reflexivity | now rewrite IH].
Qed.

Lemma substring_front (a b : string) :
  substring 0 (String.length a) (a ++ b) = a.
Proof.
  induction a as [|x a IH]; simpl; [now destruct b | now rewrite IH].
Qed.

Lemma substring_back (a b : string) :
  substring (String.length a) (String.length b) (a ++ b) = b.
Proof.
  induction a as [|x a IH]; simpl; [apply substring_all | exact IH].
Qed.

(** The extension is the end of the path. *)
Lemma extension_suffix (s : string) :
  forall read cur front,
    read = (front ++ cur)%string ->
    exists front', (read ++ s)%string = (front' ++ filepath.extension cur s)%string.
Proof.
  induction s as [|c s IH]; intros read cur front Hread.
  - exists front. simpl. now rewrite append_empty.
  - replace (read ++ String c s)%string with ((read ++ String c "") ++ s)%string
      by (rewrite append_assoc; reflexivity).
    simpl. destruct (filepath.isSlash c).
    { apply (IH _ "" (read ++ String c ""))%string. now rewrite append_empty. }
    destruct (Ascii.eqb c ".").
    { apply (IH _ (String c "") read). reflexivity. }
    destruct cur as [|x cur].
    + apply (IH _ "" (read ++ String c ""))%string. now rewrite append_empty.
    + apply (IH _ (String x cur ++ String c "") front)%string.
      rewrite Hread, append_assoc. reflexivity.
Qed.

(** X18: lines 61 and 62 cut the base name of the input file in two: the
    name that goes into the image name, followed by the extension, is the
    base name. *)
Theorem baseName_extension (filename : string) :
  (strings.TrimSuffix (filepath.Base filename) (filepath.Ext (filepath.Base filename))
   ++ filepath.Ext (filepath.Base filename))%string
  = filepath.Base filename.
Proof.
  set (base := filepath.Base filename). set (e := filepath.Ext base).
  destruct (extension_suffix base "" "" "" eq_refl) as [front Hfront].
  change (base = (front ++ e)%string) in Hfront.
  clearbody e base. subst base.
  unfold strings.TrimSuffix, strings.HasSuffix. rewrite !length_append.
  replace (String.length front + String.length e - String.length e)%nat
    with (String.length front) by lia.
  rewrite substring_back, substring_front, String.eqb_refl.
  replace (String.length e <=? String.length front + String.length e)%nat
    with true by (symmetry; apply Nat.leb_le; lia).
  reflexivity.
Qed.

Lemma noSlash_app (a b : string) :
  noSlash (a ++ b) = noSlash a && noSlash b.
Proof.
  induction a as [|c a IH]; simpl; [reflexivity|].
  rewrite IH. now rewrite andb_assoc.
Qed.

Lemma noSlash_decimal (z : Z) : noSlash (fmt.decimal z) = true.
Proof.
  assert (Hu : forall d, noSlash (NilEmpty.string_of_uint d) = true)
    by (induction d; simpl; auto).
  assert (Hn : forall d, noSlash (NilZero.string_of_uint d) = true)
    by (intros d; destruct d; simpl; auto; apply Hu).
  unfold fmt.decimal, NilZero.string_of_int.
  destruct (Z.to_int z); simpl; apply Hn.
Qed.

Lemma noSlash_substring (s : string) :
  noSlash s = true -> forall n m, noSlash (substring n m s) = true.
Proof.
  induction s as [|c s IH]; intros H n m.
  - destruct n, m; reflexivity.
  - simpl in H. apply andb_prop in H. destruct H as [Hc Hs].
    destruct n as [|n]; [destruct m as [|m]|]; simpl; auto.
    rewrite Hc. simpl. apply IH. exact Hs.
Qed.

Lemma noSlash_lastElement (s : string) :
  forall acc, noSlash acc = true -> noSlash (filepath.lastElement acc s) = true.
Proof.
  induction s as [|c s IH]; intros acc H; simpl; [exact H|].
  unfold filepath.isSlash. destruct (Ascii.eqb c "/") eqn:Hc.
  - apply IH. reflexivity.
  - apply IH. rewrite noSlash_app, H. simpl. now rewrite Hc.
Qed.

(** The base name of a path has no slash, unless it is the root. *)
Lemma noSlash_Base (p : string) :
  filepath.Base p <> "/" -> noSlash (filepath.Base p) = true.
Proof.
  unfold filepath.Base. destruct p as [|c p]; [reflexivity|].
  set (q := strings.reverse "" (filepath.dropSlashes (strings.reverse "" (String c p)))).
  pose proof (noSlash_lastElement q "" eq_refl) as H.
  destruct (filepath.lastElement "" q); [contradiction | intros _; exact H].
Qed.

Lemma noSlash_TrimSuffix (s suffix : string) :
  noSlash s = true -> noSlash (strings.TrimSuffix s suffix) = true.
Proof.
  intros H. unfold strings.TrimSuffix.
  destruct (strings.HasSuffix s suffix); [|exact H].
  apply noSlash_substring. exact H.
Qed.

Lemma genSplit_noSlash (s : string) :
  noSlash s = true ->
  forall acc, strings.genSplit "/" 0 acc s = [(acc ++ s)%string].
Proof.
  induction s as [|c s IH]; intros H acc.
  - simpl. now rewrite append_empty.
  - simpl in H. apply andb_prop in H. destruct H as [Hc Hs].
    cbn [strings.genSplit String.prefix].
    destruct (ascii_dec "/" c) as [E|_].
    { subst c. discriminate Hc. }
    rewrite (IH Hs), append_assoc. reflexivity.
Qed.

(** In the "images" directory, a name that starts with "img-" and has no
    slash is joined as it is. *)
Lemma Join_images (rest : string) :
  noSlash rest = true ->
  path.Join [ImagesDir; ("img-" ++ rest)%string] = ("images/img-" ++ rest)%string.
Proof.
  intros H. unfold path.Join, path.Clean, ImagesDir, strings.Split.
  cbn [filter String.eqb negb String.concat append Ascii.eqb Bool.eqb].
  cbn [strings.genSplit String.prefix].
  repeat (match goal with
          | |- context [ascii_dec ?a ?b] =>
              destruct (ascii_dec a b); try discriminate; try congruence
          end).
  cbn [String.length Nat.sub strings.genSplit String.prefix].
  repeat (match goal with
          | |- context [ascii_dec ?a ?b] =>
              destruct (ascii_dec a b); try discriminate; try congruence
          end).
  rewrite (genSplit_noSlash rest H). reflexivity.
Qed.

(** X19: when the file, made of a header and data rows, has been read and
    rendered, the image is written under
    images/img-<name>-<mode>-<rows>-<time>.png, where <name> is the base
    name of the input without its extension, <rows> the number of data rows
    of the file, whatever the limit, and <time> the Unix time; this for an
    input that is not the root directory and a mode without a slash. *)
Theorem main_writes_image (sys : System) (w : World) (limit : Z)
  (filename mode : string) (hd : list string) (data : File)
  (ctx : sm.Context) (n : Z) (e : err_t) (img : Image) :
  reads sys filename (hd :: data) ->
  Z.of_nat (List.length (hd :: data)) < 2 ^ 63 ->
  markLocations sys limit filename mode = Returns (ctx, n, e) ->
  Render w ctx = inl img ->
  filepath.Base filename <> "/" ->
  noSlash mode = true ->
  exists before after,
    fst (main sys w limit filename mode)
    = (before
       ++ Saving
            ("images/img-"
             ++ strings.TrimSuffix (filepath.Base filename)
                  (filepath.Ext (filepath.Base filename))
             ++ "-" ++ mode ++ "-" ++ fmt.decimal (Z.of_nat (List.length data))
             ++ "-" ++ fmt.decimal (Unix w) ++ ".png")%string img
       :: after)%list.
Proof.
  intros Hreads Hlen Hrun Hrender Hbase Hmode.
  assert (Hne : n = Z.of_nat (List.length data) /\ e = None).
  { rewrite (markLocations_reads sys limit filename mode _ Hreads) in Hrun.
    destruct (readAll limit mode (hd :: data) (ctx0, -1)) as [[c rc]|i k] eqn:Hall;
      [|discriminate Hrun].
    apply readAll_rowCount in Hall; [|lia|lia].
    change (List.length (hd :: data)) with (S (List.length data)) in Hall.
    cbn [bind fst snd] in Hrun. injection Hrun as _ Hn He. split; [lia | auto]. }
  destruct Hne as [Hn He]. subst n e.
  unfold main. rewrite Hrun, Hrender. cbv zeta.
  set (stem := strings.TrimSuffix (filepath.Base filename)
                 (filepath.Ext (filepath.Base filename))).
  assert (Hpath :
            path.Join [ImagesDir;
                       fmt.imageName stem mode (Z.of_nat (List.length data)) (Unix w)]
            = ("images/img-" ++ stem ++ "-" ++ mode ++ "-"
               ++ fmt.decimal (Z.of_nat (List.length data)) ++ "-"
               ++ fmt.decimal (Unix w) ++ ".png")%string).
  { apply Join_images. rewrite !noSlash_app, !noSlash_decimal, Hmode.
    unfold stem. rewrite (noSlash_TrimSuffix _ _ (noSlash_Base _ Hbase)).
    reflexivity. }
  rewrite Hpath.
  exists (Println [Str (fmt.inputLine filename mode limit)]
          :: Rendering ctx
          :: (if IsNotExist w ImagesDir then [Mkdir ImagesDir ModePerm] else [])).
  eexists. unfold andThen. cbn [fst snd app].
  destruct (IsNotExist w ImagesDir); reflexivity.
Qed.

Lemma main_writes_image_witness :
  exists before after,
    fst (main (oneFile "trips.csv" fiveTrips) (fairWorld 1700000000) 1
           "trips.csv" "plot")
    = (before
       ++ Saving
            ("images/img-"
             ++ strings.TrimSuffix (filepath.Base "trips.csv")
                  (filepath.Ext (filepath.Base "trips.csv"))
             ++ "-" ++ "plot" ++ "-"
             ++ fmt.decimal (Z.of_nat (List.length (tl fiveTrips)))
             ++ "-" ++ fmt.decimal (Unix (fairWorld 1700000000)) ++ ".png")%string
            (ImageOf ctx0)
       :: after)%list.
Proof.
  apply (main_writes_image (oneFile "trips.csv" fiveTrips) (fairWorld 1700000000) 1
           "trips.csv" "plot" header (tl fiveTrips) ctx0 5 None (ImageOf ctx0)).
  - exists "/trips.csv". repeat split; reflexivity.
  - vm_compute. reflexivity.
  - vm_compute. reflexivity.
  - reflexivity.
  - vm_compute. discriminate.
  - reflexivity.
Defined.
